(** * Investment intake flow: investment math, Step Two wizard and API routes

    Shallow embedding of [src/lib/dealmaker.ts] (investment math and the
    provider-facing helpers), [src/components/step-two-details.tsx] (the
    Step Two section wizard) and the API route handlers.

    JavaScript numbers are modelled as exact rationals [Q]: [Math.floor]
    and [Math.ceil] are [Qfloor] and [Qceiling], and
    [parseFloat(x.toFixed(2))] is rounding to the nearest cent with ties
    away from zero.  The section on binary64 models [alignToSharePrice]
    and [calculateInvestment] a second time on IEEE-754 doubles, with the
    rounding of every operation. *)

From Stdlib Require Import ZArith QArith Qround Lia Lqa List Bool Ascii String.
From Stdlib Require Import Sorted Permutation Qabs.
From Stdlib Require SpecFloat.
Import ListNotations.

Open Scope Q_scope.

(** Strict comparison [x < y] on numbers as a boolean. *)
Definition Qlt_bool (x y : Q) : bool := negb (Qle_bool y x).

(** ** [src/lib/dealmaker.ts]: configuration and investment math *)

(** [{ threshold: number; bonusPercent: number }] *)
Record VolumeTier := mkTier {
  threshold : Q;
  bonusPercent : Q
}.

(** [interface InvestmentConfig] *)
Record InvestmentConfig := mkConfig {
  sharePrice : Q;
  minInvestment : Q;
  maxInvestment : option Q;
  investorFeePercent : Q;
  campaignRaised : Q;
  campaignGoal : Q;
  investorsCount : option Q;
  currency : option string;
  currencySymbol : option string;
  securityType : option string;
  presetAmounts : list Q;
  volumeTiers : list VolumeTier
}.

(** [FALLBACK_CONFIG] *)
Definition FALLBACK_CONFIG : InvestmentConfig := {|
  sharePrice := 85 # 100;
  minInvestment := 99875 # 100;
  maxInvestment := None;
  investorFeePercent := 2;
  campaignRaised := 14000000;
  campaignGoal := 17000000;
  investorsCount := None;
  currency := None;
  currencySymbol := None;
  securityType := None;
  presetAmounts :=
    [250070 # 100; 500055 # 100; 1000025 # 100; 2500025 # 100;
     5000050 # 100; 10000015 # 100; 25000025 # 100];
  volumeTiers :=
    [mkTier 25000 15; mkTier 10000 10; mkTier 5000 5]
|}.

(** [interface InvestmentCalculation]; share counts are integers. *)
Record InvestmentCalculation := mkCalc {
  amount : Q;
  baseShares : Z;
  calcBonusPercent : Q;
  bonusShares : Z;
  totalShares : Z;
  effectiveSharePrice : Q;
  investorFee : Q;
  totalWithFee : Q
}.

(** The loop of [calculateInvestment]:
    [for (const tier of volumeTiers) if (amount >= tier.threshold)
       { bonusPercent = tier.bonusPercent; break }], starting from 0. *)
Fixpoint tierLoop (amt : Q) (tiers : list VolumeTier) : Q :=
  match tiers with
  | [] => 0
  | tier :: rest =>
      if Qle_bool (threshold tier) amt then bonusPercent tier
      else tierLoop amt rest
  end.

(** [calculateInvestment(amount, config)] *)
Definition calculateInvestment (amt : Q) (config : InvestmentConfig)
  : InvestmentCalculation :=
  let sp := sharePrice config in
  let base := Qfloor (amt / sp) in
  let bp := tierLoop amt (volumeTiers config) in
  let bonus := Qfloor (inject_Z base * (bp / 100)) in
  let total := (base + bonus)%Z in
  let eff := if (0 <? total)%Z then amt / inject_Z total else sp in
  let fee := inject_Z base * sp * (investorFeePercent config / 100) in
  {| amount := amt;
     baseShares := base;
     calcBonusPercent := bp;
     bonusShares := bonus;
     totalShares := total;
     effectiveSharePrice := eff;
     investorFee := fee;
     totalWithFee := amt + fee |}.

(** [{ threshold, bonusPercent, amountNeeded }] returned by [getNextTierInfo]. *)
Record NextTierInfo := mkNext {
  nextThreshold : Q;
  nextBonusPercent : Q;
  amountNeeded : Q
}.

(** [Array.prototype.sort] with comparator [a.threshold - b.threshold]:
    a stable ascending sort, written as insertion sort.  An element is
    placed before the first element whose threshold is not smaller, so
    tiers with equal thresholds keep their original order. *)
Fixpoint insertTier (t : VolumeTier) (l : list VolumeTier) : list VolumeTier :=
  match l with
  | [] => [t]
  | u :: l' =>
      if Qle_bool (threshold t) (threshold u) then t :: u :: l'
      else u :: insertTier t l'
  end.

Fixpoint sortTiers (l : list VolumeTier) : list VolumeTier :=
  match l with
  | [] => []
  | t :: l' => insertTier t (sortTiers l')
  end.

(** The loop of [getNextTierInfo] over the sorted tiers. *)
Fixpoint firstAbove (amt : Q) (tiers : list VolumeTier) : option NextTierInfo :=
  match tiers with
  | [] => None
  | tier :: rest =>
      if Qlt_bool amt (threshold tier) then
        Some {| nextThreshold := threshold tier;
                nextBonusPercent := bonusPercent tier;
                amountNeeded := threshold tier - amt |}
      else firstAbove amt rest
  end.

(** [getNextTierInfo(amount, config)]; [None] is [null]. *)
Definition getNextTierInfo (amt : Q) (config : InvestmentConfig)
  : option NextTierInfo :=
  firstAbove amt (sortTiers (volumeTiers config)).

(** [parseFloat(x.toFixed(2))]: [toFixed] picks the integer [n] for which
    [n / 100 - |x|] is closest to zero (the larger one on a tie) and puts
    the sign back. *)
Definition roundCents (x : Q) : Q :=
  let r (y : Q) := inject_Z (Qfloor (y * 100 + (1 # 2))) / 100 in
  if Qlt_bool x 0 then - r (- x) else r x.

(** [alignToSharePrice(amount, sharePrice)] *)
Definition alignToSharePrice (amt sp : Q) : Q :=
  if Qle_bool sp 0 || Qle_bool amt 0 then amt
  else
    let shares := Qceiling (amt / sp) in
    roundCents (inject_Z shares * sp).

(** ** [src/components/step-two-details.tsx]: the Step Two wizard *)

(** [type Section = "investment" | "contact" | "confirmation" | "payment"] *)
Inductive Section := investment | contact | confirmation | payment.

Definition section_eqb (a b : Section) : bool :=
  match a, b with
  | investment, investment | contact, contact
  | confirmation, confirmation | payment, payment => true
  | _, _ => false
  end.

(** [const sectionOrder: Section[]] *)
Definition sectionOrder : list Section :=
  [investment; contact; confirmation; payment].

(** [Array.prototype.includes] *)
Definition includes (l : list Section) (s : Section) : bool :=
  existsb (section_eqb s) l.

(** [Array.prototype.indexOf]: the first index, or [-1]. *)
Fixpoint indexOf (l : list Section) (s : Section) : Z :=
  match l with
  | [] => (-1)%Z
  | x :: l' =>
      if section_eqb x s then 0%Z
      else let i := indexOf l' s in if (i <? 0)%Z then (-1)%Z else (i + 1)%Z
  end.

(** [Array.prototype.slice(0, end)]; a negative [end] counts from the end. *)
Definition slice0 {A} (l : list A) (e : Z) : list A :=
  let n := Z.of_nat (List.length l) in
  let stop := if (e <? 0)%Z then Z.max (n + e) 0 else Z.min e n in
  firstn (Z.to_nat stop) l.

(** [contactErrors] and [contactTouched]: objects whose keys may be absent. *)
Record ContactErrors := mkErrors {
  errFirstName : option string;
  errLastName : option string;
  errEmail : option string
}.

Record ContactTouched := mkTouched {
  touchedFirstName : option bool;
  touchedLastName : option bool;
  touchedEmail : option bool
}.

Definition noErrors : ContactErrors := mkErrors None None None.
Definition noneTouched : ContactTouched := mkTouched None None None.

(** The [useState] hooks of [StepTwoDetails]. *)
Record StepTwoState := mkStepTwo {
  st_amount : Q;
  st_shares : Z;
  expandedSection : Section;
  completedSections : list Section;
  investorType : string;
  firstName : string;
  lastName : string;
  email : string;
  jointFirstName : string;
  jointLastName : string;
  corporationName : string;
  trustName : string;
  isSubmitting : bool;
  submitError : string;
  submitSuccess : bool;
  contactErrors : ContactErrors;
  contactTouched : ContactTouched
}.

(** The state on mount (past the guard that needs an investor id and
    e-mail). *)
Definition initStepTwo (config : InvestmentConfig) (initialAmount : Q)
    (investorEmail : string) : StepTwoState := {|
  st_amount := initialAmount;
  st_shares := baseShares (calculateInvestment initialAmount config);
  expandedSection := investment;
  completedSections := [];
  investorType := "individual";
  firstName := ""; lastName := ""; email := investorEmail;
  jointFirstName := ""; jointLastName := "";
  corporationName := ""; trustName := "";
  isSubmitting := false; submitError := ""; submitSuccess := false;
  contactErrors := noErrors; contactTouched := noneTouched |}.

(** [isSectionAccessible(section)] *)
Definition isSectionAccessible (st : StepTwoState) (section : Section) : bool :=
  if includes (completedSections st) section then true
  else
    let idx := indexOf sectionOrder section in
    let priorSections := slice0 sectionOrder idx in
    forallb (fun s => includes (completedSections st) s) priorSections.

(** [handleSectionContinue(currentSection)] *)
Definition handleSectionContinue (currentSection : Section) (st : StepTwoState)
  : StepTwoState :=
  let completed :=
    if negb (includes (completedSections st) currentSection)
    then completedSections st ++ [currentSection]
    else completedSections st in
  let currentIndex := indexOf sectionOrder currentSection in
  let expanded :=
    if (currentIndex <? Z.of_nat (List.length sectionOrder) - 1)%Z
    then nth (Z.to_nat (currentIndex + 1)) sectionOrder investment
    else expandedSection st in
  {| st_amount := st_amount st; st_shares := st_shares st;
     expandedSection := expanded; completedSections := completed;
     investorType := investorType st;
     firstName := firstName st; lastName := lastName st; email := email st;
     jointFirstName := jointFirstName st; jointLastName := jointLastName st;
     corporationName := corporationName st; trustName := trustName st;
     isSubmitting := isSubmitting st; submitError := submitError st;
     submitSuccess := submitSuccess st;
     contactErrors := contactErrors st; contactTouched := contactTouched st |}.

(** [toggleSection(section)] *)
Definition toggleSection (section : Section) (st : StepTwoState) : StepTwoState :=
  if isSectionAccessible st section then
    {| st_amount := st_amount st; st_shares := st_shares st;
       expandedSection := section; completedSections := completedSections st;
       investorType := investorType st;
       firstName := firstName st; lastName := lastName st; email := email st;
       jointFirstName := jointFirstName st; jointLastName := jointLastName st;
       corporationName := corporationName st; trustName := trustName st;
       isSubmitting := isSubmitting st; submitError := submitError st;
       submitSuccess := submitSuccess st;
       contactErrors := contactErrors st; contactTouched := contactTouched st |}
  else st.

(** The ASCII white space and line terminators: tab, line feed, vertical
    tab, form feed, carriage return and space. *)
Definition isWhite (c : Ascii.ascii) : bool :=
  let n := Ascii.nat_of_ascii c in
  ((n =? 32) || ((9 <=? n) && (n <=? 13)))%nat.

(** The non-ASCII [StrWhiteSpaceChar]s: U+00A0 (2 bytes); U+1680,
    U+2000-U+200A, U+2028, U+2029, U+202F, U+205F, U+3000, U+FEFF (3 bytes). *)
Definition isUniSpace2 (a b : ascii) : bool :=
  Nat.eqb (nat_of_ascii a) 194 && Nat.eqb (nat_of_ascii b) 160.

Definition isUniSpace3 (a b c : ascii) : bool :=
  let n1 := nat_of_ascii a in let n2 := nat_of_ascii b in let n3 := nat_of_ascii c in
  (Nat.eqb n1 225 && Nat.eqb n2 154 && Nat.eqb n3 128)
  || (Nat.eqb n1 226 && Nat.eqb n2 128
      && ((Nat.leb 128 n3 && Nat.leb n3 138) || Nat.eqb n3 168 || Nat.eqb n3 169
          || Nat.eqb n3 175))
  || (Nat.eqb n1 226 && Nat.eqb n2 129 && Nat.eqb n3 159)
  || (Nat.eqb n1 227 && Nat.eqb n2 128 && Nat.eqb n3 128)
  || (Nat.eqb n1 239 && Nat.eqb n2 187 && Nat.eqb n3 191).

(** Leading [StrWhiteSpace] removed. *)
Fixpoint skipWhite (l : list ascii) : list ascii :=
  match l with
  | [] => []
  | c :: r =>
      if isWhite c then skipWhite r
      else match r with
           | [] => l
           | c2 :: r2 =>
               if isUniSpace2 c c2 then skipWhite r2
               else match r2 with
                    | [] => l
                    | c3 :: r3 => if isUniSpace3 c c2 c3 then skipWhite r3 else l
                    end
           end
  end.

(** [!s.trim()]: [trim] strips the same white space as [skipWhite],
    so the string is blank when nothing is left after it. *)
Definition isBlank (s : string) : bool :=
  match skipWhite (list_ascii_of_string s) with [] => true | _ => false end.

(** [isContactComplete] *)
Definition isContactComplete (st : StepTwoState) : bool :=
  let baseComplete := negb (isBlank (firstName st)) && negb (isBlank (lastName st)) in
  if negb baseComplete then false
  else if String.eqb (investorType st) "joint" then
    negb (isBlank (jointFirstName st)) && negb (isBlank (jointLastName st))
  else if String.eqb (investorType st) "corporation" then
    negb (isBlank (corporationName st))
  else if String.eqb (investorType st) "trust" then negb (isBlank (trustName st))
  else true.

Definition firstNameRequired : string := "First name is required".
Definition lastNameRequired : string := "Last name is required".

(** The state written by [validateContact()] and the value it returns. *)
Definition validateContact (st : StepTwoState) : ContactErrors * ContactTouched * bool :=
  let e1 := if isBlank (firstName st) then Some firstNameRequired else None in
  let e2 := if isBlank (lastName st) then Some lastNameRequired else None in
  (mkErrors e1 e2 None, mkTouched (Some true) (Some true) None,
   match e1, e2 with None, None => true | _, _ => false end).

(** JavaScript truthiness of an optional boolean. *)
Definition truthyb (b : option bool) : bool :=
  match b with Some true => true | _ => false end.

(** The text inputs of the Contact section. *)
Inductive ContactField :=
  FFirstName | FLastName | FJointFirstName | FJointLastName
| FCorporationName | FTrustName.

Definition contactValue (st : StepTwoState) (f : ContactField) : string :=
  match f with
  | FFirstName => firstName st
  | FLastName => lastName st
  | FJointFirstName => jointFirstName st
  | FJointLastName => jointLastName st
  | FCorporationName => corporationName st
  | FTrustName => trustName st
  end.

(** The answer of [POST /api/investor/complete] as seen by the Payment
    button: [SubmitHttp ok error paymentUrl] for a response that was read,
    [SubmitNetworkError] when [fetch] or [res.json()] throws. *)
Inductive SubmitOutcome :=
| SubmitHttp (ok : bool) (dataError : option string) (paymentUrl : option string)
| SubmitNetworkError.

(** The user actions handled by [StepTwoDetails].  The text of the amount
    and share inputs is carried already parsed: [AmountInput] carries
    [parseFloat(value.replace(/[,$]/g, ""))] and [SharesInput] carries
    [parseInt(value.replace(/,/g, ""))], [None] standing for [NaN]. *)
Inductive StepTwoEvent :=
| Toggle (s : Section)
| AmountInput (parsed : option Q)
| SharesInput (parsed : option Z)
| ContinueInvestment
| SelectInvestorType (v : string)
| EditContact (f : ContactField) (v : string)
| BlurFirstName
| BlurLastName
| ContinueContact
| ContinueConfirmation
| Submit (o : SubmitOutcome).

(** The setters used by the handlers below; each rebuilds the state with
    the hooks it names changed. *)
Definition setAmountShares (a : Q) (sh : Z) (st : StepTwoState) : StepTwoState :=
  {| st_amount := a; st_shares := sh;
     expandedSection := expandedSection st; completedSections := completedSections st;
     investorType := investorType st;
     firstName := firstName st; lastName := lastName st; email := email st;
     jointFirstName := jointFirstName st; jointLastName := jointLastName st;
     corporationName := corporationName st; trustName := trustName st;
     isSubmitting := isSubmitting st; submitError := submitError st;
     submitSuccess := submitSuccess st;
     contactErrors := contactErrors st; contactTouched := contactTouched st |}.

Definition setContact (ty fn ln jf jl cn tn : string) (errs : ContactErrors)
    (touched : ContactTouched) (st : StepTwoState) : StepTwoState :=
  {| st_amount := st_amount st; st_shares := st_shares st;
     expandedSection := expandedSection st; completedSections := completedSections st;
     investorType := ty;
     firstName := fn; lastName := ln; email := email st;
     jointFirstName := jf; jointLastName := jl;
     corporationName := cn; trustName := tn;
     isSubmitting := isSubmitting st; submitError := submitError st;
     submitSuccess := submitSuccess st;
     contactErrors := errs; contactTouched := touched |}.

Definition setSubmit (busy : bool) (err : string) (ok : bool) (st : StepTwoState)
  : StepTwoState :=
  {| st_amount := st_amount st; st_shares := st_shares st;
     expandedSection := expandedSection st; completedSections := completedSections st;
     investorType := investorType st;
     firstName := firstName st; lastName := lastName st; email := email st;
     jointFirstName := jointFirstName st; jointLastName := jointLastName st;
     corporationName := corporationName st; trustName := trustName st;
     isSubmitting := busy; submitError := err; submitSuccess := ok;
     contactErrors := contactErrors st; contactTouched := contactTouched st |}.

(** [handleAmountChange(value)]: [parseFloat(...) || 0], then the amount
    is set and the share count recomputed. *)
Definition handleAmountChange (config : InvestmentConfig) (parsed : option Q)
    (st : StepTwoState) : StepTwoState :=
  let numValue := match parsed with
                  | Some q => if Qeq_bool q 0 then 0 else q
                  | None => 0
                  end in
  setAmountShares numValue (baseShares (calculateInvestment numValue config)) st.

(** [handleSharesChange(value)]: [parseInt(...) || 0], then
    [amount = numValue * config.sharePrice]. *)
Definition handleSharesChange (config : InvestmentConfig) (parsed : option Z)
    (st : StepTwoState) : StepTwoState :=
  let numValue := match parsed with Some n => n | None => 0%Z end in
  setAmountShares (inject_Z numValue * sharePrice config) numValue st.

(** The [onChange] of the investor-type [<select>]. *)
Definition changeInvestorType (v : string) (st : StepTwoState) : StepTwoState :=
  setContact v "" "" "" "" "" "" noErrors noneTouched st.

(** The [onChange] handlers of the Contact text inputs. *)
Definition editContact (f : ContactField) (v : string) (st : StepTwoState)
  : StepTwoState :=
  let ty := investorType st in
  let fn := firstName st in let ln := lastName st in
  let jf := jointFirstName st in let jl := jointLastName st in
  let cn := corporationName st in let tn := trustName st in
  let errs := contactErrors st in let touched := contactTouched st in
  match f with
  | FFirstName =>
      let errs' :=
        if truthyb (touchedFirstName touched) then
          mkErrors (if negb (isBlank v) then None else Some firstNameRequired)
                   (errLastName errs) (errEmail errs)
        else errs in
      setContact ty v ln jf jl cn tn errs' touched st
  | FLastName =>
      let errs' :=
        if truthyb (touchedLastName touched) then
          mkErrors (errFirstName errs)
                   (if negb (isBlank v) then None else Some lastNameRequired)
                   (errEmail errs)
        else errs in
      setContact ty fn v jf jl cn tn errs' touched st
  | FJointFirstName => setContact ty fn ln v jl cn tn errs touched st
  | FJointLastName => setContact ty fn ln jf v cn tn errs touched st
  | FCorporationName => setContact ty fn ln jf jl v tn errs touched st
  | FTrustName => setContact ty fn ln jf jl cn v errs touched st
  end.

(** The [onBlur] handlers of the first- and last-name inputs. *)
Definition blurFirstName (st : StepTwoState) : StepTwoState :=
  let t := contactTouched st in
  let e := contactErrors st in
  let errs' := if isBlank (firstName st)
               then mkErrors (Some firstNameRequired) (errLastName e) (errEmail e)
               else e in
  setContact (investorType st) (firstName st) (lastName st) (jointFirstName st)
    (jointLastName st) (corporationName st) (trustName st) errs'
    (mkTouched (Some true) (touchedLastName t) (touchedEmail t)) st.

Definition blurLastName (st : StepTwoState) : StepTwoState :=
  let t := contactTouched st in
  let e := contactErrors st in
  let errs' := if isBlank (lastName st)
               then mkErrors (errFirstName e) (Some lastNameRequired) (errEmail e)
               else e in
  setContact (investorType st) (firstName st) (lastName st) (jointFirstName st)
    (jointLastName st) (corporationName st) (trustName st) errs'
    (mkTouched (touchedFirstName t) (Some true) (touchedEmail t)) st.

(** The Investment [Continue] button is disabled when
    [amount < config.minInvestment ||
     (!!config.maxInvestment && amount > config.maxInvestment)]. *)
Definition investmentContinueDisabled (config : InvestmentConfig) (st : StepTwoState)
  : bool :=
  Qlt_bool (st_amount st) (minInvestment config)
  || match maxInvestment config with
     | Some m => negb (Qeq_bool m 0) && Qlt_bool m (st_amount st)
     | None => false
     end.

(** The Contact [Continue] button: disabled unless [isContactComplete];
    [validateContact()] then gates [handleSectionContinue("contact")]. *)
Definition continueContact (st : StepTwoState) : StepTwoState :=
  if negb (isContactComplete st) then st
  else
    let '(errs, touched, ok) := validateContact st in
    let st1 := setContact (investorType st) (firstName st) (lastName st)
                 (jointFirstName st) (jointLastName st) (corporationName st)
                 (trustName st) errs touched st in
    if ok then handleSectionContinue contact st1 else st1.

Definition submitFailedMessage : string :=
  "Failed to complete investment. Please try again.".
Definition networkErrorMessage : string :=
  "Network error. Please check your connection and try again.".

(** The [onClick] of the Payment button, from [setSubmitError("")] to the
    [finally] block.  On a redirect the page is left; the state keeps
    what the handler wrote. *)
Definition submitPayment (o : SubmitOutcome) (st : StepTwoState) : StepTwoState :=
  if isSubmitting st || submitSuccess st then st
  else
    match o with
    | SubmitHttp false err _ =>
        let msg := match err with
                   | Some s => if String.eqb s "" then submitFailedMessage else s
                   | None => submitFailedMessage
                   end in
        setSubmit false msg (submitSuccess st) st
    | SubmitHttp true _ (Some url) =>
        if String.eqb url "" then setSubmit false "" true st
        else setSubmit false "" (submitSuccess st) st
    | SubmitHttp true _ None => setSubmit false "" true st
    | SubmitNetworkError => setSubmit false networkErrorMessage (submitSuccess st) st
    end.

(** One user action.  The content of a section (its inputs and buttons)
    is rendered only while that section is expanded; the section headers
    are always rendered. *)
Definition stepTwo (config : InvestmentConfig) (ev : StepTwoEvent) (st : StepTwoState)
  : StepTwoState :=
  let shown (s : Section) := section_eqb (expandedSection st) s in
  match ev with
  | Toggle s => toggleSection s st
  | AmountInput p => if shown investment then handleAmountChange config p st else st
  | SharesInput p => if shown investment then handleSharesChange config p st else st
  | ContinueInvestment =>
      if shown investment && negb (investmentContinueDisabled config st)
      then handleSectionContinue investment st else st
  | SelectInvestorType v => if shown contact then changeInvestorType v st else st
  | EditContact f v => if shown contact then editContact f v st else st
  | BlurFirstName => if shown contact then blurFirstName st else st
  | BlurLastName => if shown contact then blurLastName st else st
  | ContinueContact => if shown contact then continueContact st else st
  | ContinueConfirmation =>
      if shown confirmation then handleSectionContinue confirmation st else st
  | Submit o => if shown payment then submitPayment o st else st
  end.

(** The states reachable from mounting the component. *)
Inductive reachable (config : InvestmentConfig) (a0 : Q) (em : string)
  : StepTwoState -> Prop :=
| reach_init : reachable config a0 em (initStepTwo config a0 em)
| reach_step : forall ev st,
    reachable config a0 em st -> reachable config a0 em (stepTwo config ev st).

(** ** [src/components/step-one-invest.tsx]: the committed amount *)

Inductive DisplayMode := dollars | shares.

(** [Math.round] *)
Definition mathRound (x : Q) : Z := Qfloor (x + (1 # 2)).

(** The amount committed by [handleInputChange(value)] of Step One, from
    [parseFloat(cleanValue)] ([None] for [NaN]). *)
Definition stepOneInputAmount (mode : DisplayMode) (config : InvestmentConfig)
    (parsed : option Q) : Q :=
  let numValue := match parsed with
                  | Some q => if Qeq_bool q 0 then 0 else q
                  | None => 0
                  end in
  match mode with
  | dollars =>
      if Qlt_bool 0 numValue then alignToSharePrice numValue (sharePrice config)
      else 0
  | shares =>
      let wholeShares := Z.max 0 (mathRound numValue) in
      roundCents (inject_Z wholeShares * sharePrice config)
  end.

(** ** API routes *)

Open Scope string_scope.

#[local] Set Warnings "-register-all".

(** JSON values (request bodies, provider payloads and response bodies). *)
Inductive Json :=
| JNull
| JBool (b : bool)
| JNum (q : Q)
| JStr (s : string)
| JArr (l : list Json)
| JObj (l : list (string * Json)).

(** [obj[key]] on an object; [None] is [undefined]. *)
Fixpoint assoc (l : list (string * Json)) (k : string) : option Json :=
  match l with
  | [] => None
  | (k', v) :: l' => if String.eqb k k' then Some v else assoc l' k
  end.

(** Property access [v.key]: a [TypeError] on [null] ([inl tt]),
    [undefined] when the key is absent. *)
Definition getProp (v : Json) (k : string) : unit + option Json :=
  match v with
  | JNull => inl tt
  | JObj l => inr (assoc l k)
  | _ => inr None
  end.

(** JavaScript truthiness ([None] is [undefined]). *)
Definition truthy (v : option Json) : bool :=
  match v with
  | None | Some JNull => false
  | Some (JBool b) => b
  | Some (JNum q) => negb (Qeq_bool q 0)
  | Some (JStr s) => negb (String.eqb s "")
  | Some (JArr _) | Some (JObj _) => true
  end.

(** [a || b] on values. *)
Definition jsOr (a : option Json) (b : Json) : Json :=
  if truthy a then match a with Some v => v | None => b end else b.

(** The environment variables read by [isDealmakerConfigured()]. *)
Record Env := mkEnv {
  DEALMAKER_CLIENT_ID : option string;
  DEALMAKER_CLIENT_SECRET : option string;
  DEALMAKER_DEAL_ID : option string
}.

Definition envSet (v : option string) : bool :=
  match v with Some s => negb (String.eqb s "") | None => false end.

(** [isDealmakerConfigured()] *)
Definition isDealmakerConfigured (env : Env) : bool :=
  envSet (DEALMAKER_CLIENT_ID env) && envSet (DEALMAKER_CLIENT_SECRET env)
  && envSet (DEALMAKER_DEAL_ID env).

(** [process.env.DEALMAKER_DEAL_ID!] *)
Definition dealIdOf (env : Env) : string :=
  match DEALMAKER_DEAL_ID env with Some s => s | None => "" end.

(** A rejected provider call: [DealMakerApiError] carries [status] and
    [responseBody]; a token or network failure carries neither. *)
Record ApiError := mkApiError {
  errStatus : option Z;
  errBody : option string
}.

Inductive Outcome (A : Type) :=
| Ok (a : A)
| Fail (e : ApiError).
Arguments Ok {A} a.
Arguments Fail {A} e.

Definition bindO {A B} (m : Outcome A) (k : A -> Outcome B) : Outcome B :=
  match m with Ok a => k a | Fail e => Fail e end.

Notation "'let*' x := m 'in' k" := (bindO m (fun x => k))
  (at level 200, x name, m at level 100, k at level 200).

(** [interface DealInvestor], with the fields the routes read; [name]
    and [created_at], read by the search route, are not in the interface
    and may be absent ([None] is [undefined]). *)
Record DealInvestor := mkInvestor {
  inv_id : Z;
  subscription_id : Json;
  investment_value : Json;
  number_of_securities : Json;
  inv_state : option string;
  current_step : Json;
  inv_name : option Json;
  created_at : option Json
}.

(** The raw answer of [searchDealInvestors]: a bare array, or an envelope
    with optional [items] and [data] arrays. *)
Inductive SearchRaw :=
| BareArray (l : list DealInvestor)
| Envelope (items : option (list DealInvestor)) (data : option (list DealInvestor)).

(** The provider client ([dmFetch] and the functions built on it) and the
    JavaScript built-ins the routes use, as oracles. *)
Record Runtime := mkRuntime {
  searchDealInvestors : string -> Json -> Outcome SearchRaw;
  createInvestorProfile : Json -> list (string * Json) -> Outcome Json;
  createDealInvestor : string -> list (string * Json) -> list (string * Json)
                       -> Outcome DealInvestor;
  updateDealInvestor : string -> option Json -> list (string * Json) -> Outcome DealInvestor;
  getInvestorAccessLink : string -> Json -> Outcome (option string);
  jsonParse : string -> option Json;
  parseInt10 : string -> option Z;
  jsString : Json -> string
}.

(** What a handler produces: a [NextResponse] with a status and a JSON
    body, or an exception escaping the handler. *)
Inductive HttpResult :=
| Respond (status : Z) (body : Json)
| Uncaught.

Definition respondOk (body : list (string * Json)) : HttpResult :=
  Respond 200 (JObj body).

Definition respondError (msg : Json) (status : Z) : HttpResult :=
  Respond status (JObj [("error", msg)]).

Definition statusOf (r : HttpResult) : option Z :=
  match r with Respond s _ => Some s | Uncaught => None end.

(** An object literal passed to [JSON.stringify]: keys whose value is
    [undefined] ([None]) are dropped. *)
Fixpoint obj (l : list (string * option Json)) : list (string * Json) :=
  match l with
  | [] => []
  | (k, Some v) :: l' => (k, v) :: obj l'
  | (k, None) :: l' => obj l'
  end.

Definition optStr (s : option string) : option Json := option_map JStr s.

(** [String.prototype.toLowerCase] on ASCII letters. *)
Definition lowerAscii (c : Ascii.ascii) : Ascii.ascii :=
  let n := Ascii.nat_of_ascii c in
  if ((65 <=? n) && (n <=? 90))%nat then Ascii.ascii_of_nat (n + 32) else c.

Definition toLowerCase (s : string) : string :=
  string_of_list_ascii (map lowerAscii (list_ascii_of_string s)).

(** [inv.state && resumableStates.includes(inv.state.toLowerCase())] *)
Definition isResumable (resumableStates : list string) (inv : DealInvestor) : bool :=
  match inv_state inv with
  | Some s => negb (String.eqb s "")
              && existsb (String.eqb (toLowerCase s)) resumableStates
  | None => false
  end.

Definition broadResumableStates : list string :=
  ["invited"; "signed"; "waiting"; "accepted"; "draft"; "active"; "pending"].
Definition narrowResumableStates : list string := ["invited"; "signed"; "waiting"].

(** [.sort((a, b) => Number(b.id) - Number(a.id))]: stable, descending ids. *)
Fixpoint insertById (x : DealInvestor) (l : list DealInvestor) : list DealInvestor :=
  match l with
  | [] => [x]
  | u :: l' => if (inv_id u <=? inv_id x)%Z then x :: u :: l' else u :: insertById x l'
  end.

Fixpoint sortByIdDesc (l : list DealInvestor) : list DealInvestor :=
  match l with
  | [] => []
  | x :: l' => insertById x (sortByIdDesc l')
  end.

(** [Array.prototype.find] *)
Fixpoint findFirst {A} (p : A -> bool) (l : list A) : option A :=
  match l with
  | [] => None
  | x :: l' => if p x then Some x else findFirst p l'
  end.

(** A field of the request body, [undefined] when the body is not an object. *)
Definition field (body : Json) (k : string) : option Json :=
  match getProp body k with inr v => v | inl _ => None end.

(** [e.status || d] *)
Definition statusOr (e : ApiError) (d : Z) : Z :=
  match errStatus e with Some s => if (s =? 0)%Z then d else s | None => d end.

(** [link.access_link || null] *)
Definition linkOrNull (l : option string) : Json :=
  match l with Some s => if String.eqb s "" then JNull else JStr s | None => JNull end.

(** The best-effort access-link fetch shared by the routes:
    [try { url = (await getInvestorAccessLink(dealId, id)).access_link || null }
     catch { }], starting from [null]. *)
Definition accessLinkOrNull (rt : Runtime) (dealId : string) (id : Json) : Json :=
  match getInvestorAccessLink rt dealId id with
  | Ok l => linkOrNull l
  | Fail _ => JNull
  end.

(** The investors of a search answer: [Array.isArray(raw) ? raw :
    (raw.items || raw.data || [])]. *)
Definition investorsOf (raw : SearchRaw) : list DealInvestor :=
  match raw with
  | BareArray l => l
  | Envelope (Some l) _ => l
  | Envelope None (Some l) => l
  | Envelope None None => []
  end.

(** The same with [raw.data || []] only (the resume route). *)
Definition investorsOfData (raw : SearchRaw) : list DealInvestor :=
  match raw with
  | BareArray l => l
  | Envelope _ (Some l) => l
  | Envelope _ None => []
  end.

Definition notConfigured : string := "DealMaker is not configured.".
Definition notConfiguredCreate : string :=
  "DealMaker is not configured. Add API credentials to proceed.".

(** [POST /api/investor/create] (the first handler of [src/unnamed/part_002]).
    [req] is the result of [request.json()], [None] when it throws. *)
Definition createEarly (rt : Runtime) (env : Env) (req : option Json) : HttpResult :=
  if negb (isDealmakerConfigured env) then respondError (JStr notConfiguredCreate) 503
  else
  let dealId := dealIdOf env in
  match req with
  | None | Some JNull => Uncaught
  | Some body =>
  let em := field body "email" in
  let investmentAmount := field body "investmentAmount" in
  if negb (truthy em) || negb (truthy investmentAmount) then
    respondError (JStr "Email and investment amount are required.") 400
  else
  let emv := jsOr em JNull in
  let tried : Outcome HttpResult :=
    let* existing :=
      if negb (truthy (field body "forceCreate")) then
        let* raw := searchDealInvestors rt dealId emv in
        let resumable :=
          sortByIdDesc (filter (isResumable narrowResumableStates) (investorsOf raw)) in
        Ok (match resumable with
            | [] => None
            | _ => Some (respondOk [("existingInvestments", JBool true);
                     ("investments", JArr (map (fun inv => JObj (obj
                        [("id", Some (JNum (inject_Z (inv_id inv))));
                         ("state", optStr (inv_state inv));
                         ("amount", Some (investment_value inv));
                         ("shares", Some (number_of_securities inv))])) resumable))])
            end)
      else Ok None in
    match existing with
    | Some r => Ok r
    | None =>
      let* profile := createInvestorProfile rt (JStr "individual")
                        [("email", emv); ("first_name", JStr "Pending");
                         ("last_name", JStr "Investor")] in
      match getProp profile "id" with
      | inl _ => Fail (mkApiError None None)
      | inr profileId =>
      let utm := obj (map (fun '(h, k) =>
                   (h, if truthy (field body k) then field body k else None))
                   [("X-DealMaker-UTM-Source", "utm_source");
                    ("X-DealMaker-UTM-Medium", "utm_medium");
                    ("X-DealMaker-UTM-Campaign", "utm_campaign");
                    ("X-DealMaker-UTM-Content", "utm_content");
                    ("X-DealMaker-UTM-Term", "utm_term")]) in
      let* investor := createDealInvestor rt dealId (obj
                         [("email", Some emv); ("first_name", Some (JStr "Pending"));
                          ("last_name", Some (JStr "Investor"));
                          ("investment_value", investmentAmount);
                          ("allocation_unit", Some (JStr "amount"));
                          ("investor_profile_id", profileId)]) utm in
      Ok (respondOk (obj [("existingInvestments", Some (JBool false));
                          ("investorId", Some (JNum (inject_Z (inv_id investor))));
                          ("profileId", profileId);
                          ("subscriptionId", Some (subscription_id investor));
                          ("state", optStr (inv_state investor))]))
      end
    end in
  match tried with
  | Ok r => r
  | Fail e =>
      let status := statusOr e 500 in
      let msg := if (status =? 409)%Z then "An investor with this email already exists."
                 else if (status =? 422)%Z
                 then "Invalid email or amount. Please check and try again."
                 else "Something went wrong. Please try again." in
      respondError (JStr msg) status
  end
  end.

(** The [switch] building the profile payload, shared by the full create
    route and the complete route.  The type is [investorType || "individual"]. *)
Definition profilePayload (ty : Json) (em fn ln jf jl cn tn : option Json)
  : list (string * Json) :=
  let orEmpty v := Some (jsOr v (JStr "")) in
  obj (("email", em) ::
    match ty with
    | JStr "joint" =>
        [("first_name", fn); ("last_name", ln);
         ("joint_holder_first_name", orEmpty jf); ("joint_holder_last_name", orEmpty jl)]
    | JStr "corporation" =>
        [("name", orEmpty cn); ("signing_officer_first_name", fn);
         ("signing_officer_last_name", ln)]
    | JStr "trust" =>
        [("name", orEmpty tn);
         ("trustees", Some (JArr [JObj (obj [("first_name", fn); ("last_name", ln)])]))]
    | _ => [("first_name", fn); ("last_name", ln)]
    end).

(** [field.replace(/_/g, " ").replace(/\b\w/g, (c) => c.toUpperCase())] *)
Definition isWordChar (c : Ascii.ascii) : bool :=
  let n := Ascii.nat_of_ascii c in
  ((48 <=? n) && (n <=? 57) || (65 <=? n) && (n <=? 90)
   || (97 <=? n) && (n <=? 122) || (n =? 95))%nat.

Definition upperAscii (c : Ascii.ascii) : Ascii.ascii :=
  let n := Ascii.nat_of_ascii c in
  if ((97 <=? n) && (n <=? 122))%nat then Ascii.ascii_of_nat (n - 32) else c.

Fixpoint capitalizeWords (prevWord : bool) (l : list Ascii.ascii) : list Ascii.ascii :=
  match l with
  | [] => []
  | c :: l' =>
      (if isWordChar c && negb prevWord then upperAscii c else c)
      :: capitalizeWords (isWordChar c) l'
  end.

Definition fieldLabel (f : string) : string :=
  let spaced := map (fun c => if Ascii.eqb c "_"%char then " "%char else c)
                    (list_ascii_of_string f) in
  string_of_list_ascii (capitalizeWords false spaced).

(** [Array.prototype.join(sep)]: [null] elements print as the empty string. *)
Fixpoint joinWith (rt : Runtime) (sep : string) (l : list Json) : string :=
  match l with
  | [] => ""
  | [x] => match x with JNull => "" | _ => jsString rt x end
  | x :: l' => (match x with JNull => "" | _ => jsString rt x end)
               ++ sep ++ joinWith rt sep l'
  end.

Fixpoint joinStrings (sep : string) (l : list string) : string :=
  match l with
  | [] => ""
  | [x] => x
  | x :: l' => x ++ sep ++ joinStrings sep l'
  end.

(** [Object.entries] of an object or array. *)
Fixpoint natDigits (fuel n : nat) : string :=
  match fuel with
  | O => ""
  | S f =>
      let d := String (Ascii.ascii_of_nat (48 + n mod 10)) "" in
      if (n <? 10)%nat then d else natDigits f (n / 10) ++ d
  end.

Definition entries (v : Json) : list (string * Json) :=
  match v with
  | JObj l => l
  | JArr l => combine (map (fun i => natDigits (S i) i) (seq 0 (List.length l))) l
  | _ => []
  end.

(** [apiErr.status || 0] in the [catch] of the full create route. *)
Definition createFullStatus (e : ApiError) : Z :=
  match errStatus e with Some s => s | None => 0%Z end.

(** The message built by the [catch] of the full create route, or [None]
    when the [catch] block itself throws. *)
Definition createFullMessage (rt : Runtime) (body : Json) (e : ApiError) : option string :=
  let status := createFullStatus e in
  let defaultMsg := "Something went wrong. Please try again or contact support." in
  let parsedInfo : list (string * Json) * string :=
    match errBody e with
    | Some rb =>
        if String.eqb rb "" then ([], defaultMsg) else
        match jsonParse rt rb with
        | None | Some JNull => ([], defaultMsg)
        | Some parsed =>
            let errs := field parsed "errors" in
            match errs with
            | Some ((JObj _ | JArr _) as o) => (entries o, defaultMsg)
            | _ =>
              if truthy (field parsed "error") then
                ([], jsString rt (jsOr (field parsed "error") JNull))
              else if truthy (field parsed "message") then
                ([], jsString rt (jsOr (field parsed "message") JNull))
              else ([], defaultMsg)
            end
        end
    | None => ([], defaultMsg)
    end in
  let '(apiErrors, userMessage) := parsedInfo in
  let fieldMessages :=
    map (fun '(f, messages) =>
           match messages with
           | JArr ms => Some (fieldLabel f ++ ": " ++ joinWith rt ", " ms)
           | _ => None
           end) apiErrors in
  if existsb (fun m => match m with None => true | Some _ => false end) fieldMessages
  then None
  else
  let msgs := flat_map (fun m => match m with Some s => [s] | None => [] end) fieldMessages in
  match msgs with
  | _ :: _ => Some (joinStrings ". " msgs ++ ".")
  | [] =>
    if (status =? 422)%Z then
      match body with
      | JNull => None
      | _ =>
        if negb (truthy (field body "email")) || negb (truthy (field body "firstName"))
           || negb (truthy (field body "lastName"))
        then Some "Please fill in all required fields (first name, last name, and email)."
        else Some "The information provided could not be processed. Please check your details and try again."
      end
    else if (status =? 409)%Z then
      Some "An investor with this email already exists for this deal. Please use a different email address, or use the 'Resume Investment' option above."
    else if (status =? 401)%Z then Some "Authentication error. Please try again later."
    else if (status =? 404)%Z then
      Some "The investment deal could not be found. Please try again later."
    else if (status =? 429)%Z then
      Some "Too many requests. Please wait a moment and try again."
    else Some userMessage
  end.

(** [POST] of the full create route (the second handler of
    [src/unnamed/part_002]). *)
Definition createFull (rt : Runtime) (env : Env) (req : option Json) : HttpResult :=
  if negb (isDealmakerConfigured env) then respondError (JStr notConfiguredCreate) 503
  else
  let dealId := dealIdOf env in
  match req with
  | None => Uncaught
  | Some body =>
  let tried : Outcome HttpResult :=
    match body with
    | JNull => Fail (mkApiError None None)
    | _ =>
      let ty := jsOr (field body "investorType") (JStr "individual") in
      let fn := field body "firstName" in
      let ln := field body "lastName" in
      let em := field body "email" in
      let profileData := profilePayload ty em fn ln (field body "jointFirstName")
                           (field body "jointLastName") (field body "corporationName")
                           (field body "trustName") in
      let* profile := createInvestorProfile rt ty profileData in
      match getProp profile "id" with
      | inl _ => Fail (mkApiError None None)
      | inr profileId =>
      let* investor := createDealInvestor rt dealId (obj
                         [("email", em); ("first_name", fn); ("last_name", ln);
                          ("investment_value", field body "investmentAmount");
                          ("allocation_unit", Some (JStr "amount"));
                          ("investor_profile_id", profileId)]) [] in
      let paymentUrl := accessLinkOrNull rt dealId (JNum (inject_Z (inv_id investor))) in
      Ok (respondOk (obj [("investorId", Some (JNum (inject_Z (inv_id investor))));
                          ("subscriptionId", Some (subscription_id investor));
                          ("state", optStr (inv_state investor));
                          ("paymentUrl", Some paymentUrl)]))
      end
    end in
  match tried with
  | Ok r => r
  | Fail e =>
      let status := createFullStatus e in
      match createFullMessage rt body e with
      | Some m => respondError (JStr m) (if (400 <=? status)%Z then status else 500)
      | None => Uncaught
      end
  end
  end.

(** [PATCH] of the same route; an [undefined] investor id reaches the
    provider client as [JNull]. *)
Definition patchInvestor (rt : Runtime) (env : Env) (req : option Json) : HttpResult :=
  if negb (isDealmakerConfigured env) then respondError (JStr "DealMaker is not configured") 503
  else
  let dealId := dealIdOf env in
  match req with
  | None => Uncaught
  | Some body =>
  let tried : Outcome HttpResult :=
    match body with
    | JNull => Fail (mkApiError None None)
    | _ =>
      let* updated := updateDealInvestor rt dealId (field body "investorId")
                        (obj [("current_step", field body "currentStep")]) in
      Ok (respondOk (obj [("investorId", Some (JNum (inject_Z (inv_id updated))));
                          ("state", optStr (inv_state updated));
                          ("currentStep", Some (current_step updated))]))
    end in
  match tried with
  | Ok r => r
  | Fail _ => respondError (JStr "Failed to update investor record") 500
  end
  end.

(** [POST /api/investor/complete] *)
Definition completeInvestor (rt : Runtime) (env : Env) (req : option Json) : HttpResult :=
  if negb (isDealmakerConfigured env) then respondError (JStr notConfigured) 503
  else
  let dealId := dealIdOf env in
  match req with
  | None | Some JNull => Uncaught
  | Some body =>
  let rawInvestorId := field body "investorId" in
  let em := field body "email" in
  let fn := field body "firstName" in
  let ln := field body "lastName" in
  if negb (truthy rawInvestorId) || negb (truthy em) || negb (truthy fn)
     || negb (truthy ln) then
    respondError (JStr "Missing required fields.") 400
  else
  let investorId :=
    match rawInvestorId with
    | Some (JStr s) => match parseInt10 rt s with Some z => JNum (inject_Z z) | None => JNull end
    | Some v => v
    | None => JNull
    end in
  let tried : Outcome HttpResult :=
    let ty := jsOr (field body "investorType") (JStr "individual") in
    let profileData := profilePayload ty em fn ln (field body "jointFirstName")
                         (field body "jointLastName") (field body "corporationName")
                         (field body "trustName") in
    let* profile := createInvestorProfile rt ty profileData in
    match getProp profile "id" with
    | inl _ => Fail (mkApiError None None)
    | inr profileId =>
    let* updated := updateDealInvestor rt dealId (Some investorId)
                      (obj [("investor_profile_id", profileId)]) in
    let paymentUrl := accessLinkOrNull rt dealId investorId in
    Ok (respondOk (obj [("investorId", Some (JNum (inject_Z (inv_id updated))));
                        ("state", optStr (inv_state updated));
                        ("paymentUrl", Some paymentUrl)]))
    end in
  match tried with
  | Ok r => r
  | Fail e =>
      let status := statusOr e 500 in
      let userMessage :=
        match errBody e with
        | Some rb =>
            if String.eqb rb "" then JStr "Something went wrong. Please try again."
            else match jsonParse rt rb with
                 | Some parsed =>
                     match parsed with
                     | JNull => JStr "Something went wrong. Please try again."
                     | _ =>
                       if truthy (field parsed "error") then jsOr (field parsed "error") JNull
                       else if truthy (field parsed "message")
                       then jsOr (field parsed "message") JNull
                       else JStr "Something went wrong. Please try again."
                     end
                 | None => JStr "Something went wrong. Please try again."
                 end
        | None => JStr "Something went wrong. Please try again."
        end in
      respondError userMessage status
  end
  end.

(** [POST /api/investor/resume] ([src/app/api/investor/resume/route.ts]). *)
Definition resumeInvestor (rt : Runtime) (env : Env) (req : option Json) : HttpResult :=
  if negb (isDealmakerConfigured env) then respondError (JStr notConfigured) 503
  else
  let dealId := dealIdOf env in
  match req with
  | None | Some JNull => Uncaught
  | Some body =>
  let em := field body "email" in
  if negb (truthy em) then respondError (JStr "Email is required.") 400
  else
  let tried : Outcome HttpResult :=
    let* raw := searchDealInvestors rt dealId (jsOr em JNull) in
    match findFirst (isResumable broadResumableStates) (investorsOfData raw) with
    | None => Ok (respondOk [("found", JBool false)])
    | Some existing =>
        let accessLink := accessLinkOrNull rt dealId (JNum (inject_Z (inv_id existing))) in
        Ok (respondOk (obj [("found", Some (JBool true));
                            ("investorId", Some (JNum (inject_Z (inv_id existing))));
                            ("state", optStr (inv_state existing));
                            ("accessLink", Some accessLink)]))
    end in
  match tried with
  | Ok r => r
  | Fail _ =>
      respondError (JStr "Unable to look up your investment. Please try again.") 500
  end
  end.

(** The search route of [src/unnamed/part_000]. *)
Definition searchInvestor (rt : Runtime) (env : Env) (req : option Json) : HttpResult :=
  if negb (isDealmakerConfigured env) then respondError (JStr notConfigured) 503
  else
  let dealId := dealIdOf env in
  match req with
  | None | Some JNull => Uncaught
  | Some body =>
  let em := field body "email" in
  if negb (truthy em) then respondError (JStr "Email is required.") 400
  else
  let tried : Outcome HttpResult :=
    let* raw := searchDealInvestors rt dealId (jsOr em JNull) in
    let resumable :=
      sortByIdDesc (filter (isResumable narrowResumableStates) (investorsOf raw)) in
    match resumable with
    | [] => Ok (respondOk [("found", JBool false); ("investments", JArr [])])
    | _ =>
        Ok (respondOk [("found", JBool true);
              ("investments", JArr (map (fun inv => JObj (obj
                 [("id", Some (JNum (inject_Z (inv_id inv))));
                  ("state", optStr (inv_state inv));
                  ("amount", Some (investment_value inv));
                  ("shares", Some (number_of_securities inv));
                  ("name", inv_name inv);
                  ("createdAt", created_at inv)])) resumable))])
    end in
  match tried with
  | Ok r => r
  | Fail _ =>
      respondError (JStr "Unable to look up your investment. Please try again.") 500
  end
  end.

(** The access-link [GET] of [src/unnamed/part_001]; [id] is the route
    parameter. *)
Definition accessLinkRoute (rt : Runtime) (env : Env) (id : string) : HttpResult :=
  if negb (isDealmakerConfigured env) then respondError (JStr notConfigured) 503
  else
  let dealId := dealIdOf env in
  if String.eqb id "" then respondError (JStr "Investor ID is required.") 400
  else
  let arg := match parseInt10 rt id with Some z => JNum (inject_Z z) | None => JNull end in
  match getInvestorAccessLink rt dealId arg with
  | Ok l => respondOk [("accessLink", linkOrNull l)]
  | Fail _ => respondError (JStr "Unable to get access link. Please try again.") 500
  end.

(** ** Number text: [parseFloat], [parseInt], [Number(...)] and the [en-US] format

    Text is a UTF-8 byte string.  The characters the code's patterns and
    the parsers compare against are ASCII, except the white space that
    [parseFloat], [parseInt] and [Number(...)] skip, whose non-ASCII
    members are matched by their UTF-8 encodings. *)

(** A number value: finite, [Infinity] / [-Infinity], or [NaN]. *)
Inductive JSNumber :=
| JSFinite (q : Q)
| JSInfinity (negative : bool)
| JSNaN.

Definition isDigit (c : ascii) : bool :=
  Nat.leb 48 (nat_of_ascii c) && Nat.leb (nat_of_ascii c) 57.

Definition isHexDigit (c : ascii) : bool :=
  let n := nat_of_ascii c in
  isDigit c || (Nat.leb 65 n && Nat.leb n 70) || (Nat.leb 97 n && Nat.leb n 102).

Definition isBinDigit (c : ascii) : bool := Ascii.eqb c "0"%char || Ascii.eqb c "1"%char.

Definition isOctDigit (c : ascii) : bool :=
  Nat.leb 48 (nat_of_ascii c) && Nat.leb (nat_of_ascii c) 55.

(** The value of a digit of base 2 to 16. *)
Definition hexValue (c : ascii) : Z :=
  let n := Z.of_nat (nat_of_ascii c) in
  if isDigit c then (n - 48)%Z
  else if Nat.leb 97 (nat_of_ascii c) then (n - 87)%Z else (n - 55)%Z.

(** The longest prefix whose characters satisfy [p], and the rest. *)
Fixpoint spanWhile (p : ascii -> bool) (l : list ascii) : list ascii * list ascii :=
  match l with
  | [] => ([], [])
  | c :: r => if p c then let '(d, rest) := spanWhile p r in (c :: d, rest) else ([], l)
  end.

Definition digitsValue (radix : Z) (ds : list ascii) : Z :=
  fold_left (fun acc c => (acc * radix + hexValue c)%Z) ds 0%Z.

Fixpoint isPrefix (p l : list ascii) : bool :=
  match p, l with
  | [], _ => true
  | a :: p', b :: l' => Ascii.eqb a b && isPrefix p' l'
  | _ :: _, [] => false
  end.

(** An optional sign: [true] for [-]. *)
Definition takeSign (l : list ascii) : bool * list ascii :=
  match l with
  | c :: r =>
      if Ascii.eqb c "-"%char then (true, r)
      else if Ascii.eqb c "+"%char then (false, r) else (false, l)
  | [] => (false, [])
  end.

(** The longest prefix of [l] that is a [StrDecimalLiteral]
    ([+-]? (Infinity | digits [. digits?] [exponent] | . digits [exponent])),
    with its value and the rest; [None] when no prefix is one. *)
Definition decimalPrefix (l : list ascii) : option (JSNumber * list ascii) :=
  let '(neg, l1) := takeSign l in
  if isPrefix (list_ascii_of_string "Infinity") l1 then
    Some (JSInfinity neg, skipn 8 l1)
  else
  let '(ip, r1) := spanWhile isDigit l1 in
  let '(fp, r2) := match r1 with
                   | c :: r => if Ascii.eqb c "."%char then spanWhile isDigit r else ([], r1)
                   | [] => ([], [])
                   end in
  match ip, fp with
  | [], [] => None
  | _, _ =>
      let '(ex, rest) :=
        match r2 with
        | c :: r =>
            if Ascii.eqb c "e"%char || Ascii.eqb c "E"%char then
              let '(eneg, r') := takeSign r in
              match spanWhile isDigit r' with
              | ([], _) => (0%Z, r2)
              | (ed, rest') =>
                  ((if eneg then - digitsValue 10 ed else digitsValue 10 ed)%Z, rest')
              end
            else (0%Z, r2)
        | [] => (0%Z, [])
        end in
      let mant := inject_Z (digitsValue 10 (ip ++ fp)%list)
                  / inject_Z (10 ^ Z.of_nat (List.length fp)) in
      let v := mant * Qpower 10 ex in
      Some (JSFinite (if neg then - v else v), rest)
  end.

(** [parseFloat(s)] *)
Definition parseFloat (s : list ascii) : JSNumber :=
  match decimalPrefix (skipWhite s) with
  | Some (v, _) => v
  | None => JSNaN
  end.

(** [parseInt(s)] without a radix: base 16 after a [0x] / [0X] prefix,
    else base 10; [None] is [NaN]. *)
Definition parseInt (s : list ascii) : option Z :=
  let '(neg, l1) := takeSign (skipWhite s) in
  let '(radix, l2) :=
    match l1 with
    | z :: x :: r =>
        if Ascii.eqb z "0"%char && (Ascii.eqb x "x"%char || Ascii.eqb x "X"%char)
        then (16%Z, r) else (10%Z, l1)
    | _ => (10%Z, l1)
    end in
  match spanWhile (if (radix =? 16)%Z then isHexDigit else isDigit) l2 with
  | ([], _) => None
  | (ds, _) => let v := digitsValue radix ds in Some (if neg then (- v)%Z else v)
  end.

(** The [0x] / [0b] / [0o] literals of [StringToNumber], with the rest. *)
Definition nonDecimalPrefix (l : list ascii) : option (JSNumber * list ascii) :=
  match l with
  | z :: x :: r =>
      if negb (Ascii.eqb z "0"%char) then None else
      let base :=
        if Ascii.eqb x "x"%char || Ascii.eqb x "X"%char then Some (16%Z, isHexDigit)
        else if Ascii.eqb x "b"%char || Ascii.eqb x "B"%char then Some (2%Z, isBinDigit)
        else if Ascii.eqb x "o"%char || Ascii.eqb x "O"%char then Some (8%Z, isOctDigit)
        else None in
      match base with
      | Some (radix, p) =>
          match spanWhile p r with
          | ([], _) => None
          | (ds, rest) => Some (JSFinite (inject_Z (digitsValue radix ds)), rest)
          end
      | None => None
      end
  | _ => None
  end.

(** [Number(s)] on a string: white space around one numeric literal;
    the empty (or blank) string is [0]. *)
Definition stringToNumber (s : string) : JSNumber :=
  let l := skipWhite (list_ascii_of_string s) in
  match l with
  | [] => JSFinite 0
  | _ =>
      match nonDecimalPrefix l with
      | Some (v, rest) => match skipWhite rest with [] => v | _ => JSNaN end
      | None =>
          match decimalPrefix l with
          | Some (v, rest) => match skipWhite rest with [] => v | _ => JSNaN end
          | None => JSNaN
          end
      end
  end.

(** [ToNumber] of a JSON value ([None] is [undefined]): an array goes
    through its string, [String([x]) = String(x)], and [String([])] is
    [""]; two or more elements give a string with a comma. *)
Fixpoint jsonToNumber (v : Json) : JSNumber :=
  match v with
  | JNull => JSFinite 0
  | JBool b => JSFinite (if b then 1 else 0)
  | JNum q => JSFinite q
  | JStr s => stringToNumber s
  | JObj _ => JSNaN
  | JArr [] => JSFinite 0
  | JArr [x] =>
      match x with
      | JNull => JSFinite 0
      | JBool _ | JObj _ => JSNaN
      | JNum q => JSFinite q
      | JStr s => stringToNumber s
      | JArr _ => jsonToNumber x
      end
  | JArr _ => JSNaN
  end.

Definition toNumber (v : option Json) : JSNumber :=
  match v with None => JSNaN | Some j => jsonToNumber j end.

(** [a + b], [a * b] and [a - b] on numbers. *)
Definition jsAdd (a b : JSNumber) : JSNumber :=
  match a, b with
  | JSNaN, _ | _, JSNaN => JSNaN
  | JSInfinity n1, JSInfinity n2 => if Bool.eqb n1 n2 then JSInfinity n1 else JSNaN
  | JSInfinity n, JSFinite _ | JSFinite _, JSInfinity n => JSInfinity n
  | JSFinite x, JSFinite y => JSFinite (x + y)
  end.

Definition jsMul (a b : JSNumber) : JSNumber :=
  let infTimes (n : bool) (y : Q) :=
    if Qeq_bool y 0 then JSNaN else JSInfinity (xorb n (Qlt_bool y 0)) in
  match a, b with
  | JSNaN, _ | _, JSNaN => JSNaN
  | JSInfinity n1, JSInfinity n2 => JSInfinity (xorb n1 n2)
  | JSInfinity n, JSFinite y | JSFinite y, JSInfinity n => infTimes n y
  | JSFinite x, JSFinite y => JSFinite (x * y)
  end.

Definition jsNeg (a : JSNumber) : JSNumber :=
  match a with
  | JSFinite x => JSFinite (- x)
  | JSInfinity n => JSInfinity (negb n)
  | JSNaN => JSNaN
  end.

Definition jsSub (a b : JSNumber) : JSNumber := jsAdd a (jsNeg b).

(** [a < b]: [false] when either is [NaN]. *)
Definition jsLt (a b : JSNumber) : bool :=
  match a, b with
  | JSNaN, _ | _, JSNaN => false
  | JSFinite x, JSFinite y => Qlt_bool x y
  | JSInfinity true, JSInfinity false => true
  | JSInfinity _, JSInfinity _ => false
  | JSInfinity n, JSFinite _ => n
  | JSFinite _, JSInfinity n => negb n
  end.

(** The decimal digits of [n >= 0]. *)
Definition digitChar (d : Z) : ascii := ascii_of_nat (48 + Z.to_nat d).

Fixpoint digitsFuel (fuel : nat) (n : Z) : list ascii :=
  match fuel with
  | O => []
  | S f =>
      if (n <? 10)%Z then [digitChar n]
      else (digitsFuel f (n / 10) ++ [digitChar (n mod 10)])%list
  end.

Definition decimalDigits (n : Z) : list ascii := digitsFuel (S (Z.to_nat (Z.log2 n))) n.

(** Thousands grouping of a reversed digit string. *)
Fixpoint groupRev (l : list ascii) : list ascii :=
  match l with
  | a :: b :: c :: ((_ :: _) as r) => a :: b :: c :: ","%char :: groupRev r
  | _ => l
  end.

Definition groupThousands (ds : list ascii) : list ascii := rev (groupRev (rev ds)).

(** [formatNumber(value)] ([new Intl.NumberFormat('en-US').format]) on
    the integer values the components pass to it (share counts). *)
Definition formatNumber (n : Z) : string :=
  string_of_list_ascii
    ((if (n <? 0)%Z then ["-"%char] else []) ++ groupThousands (decimalDigits (Z.abs n)))%list.

(** [x.toLocaleString("en-US", { minimumFractionDigits: 2,
    maximumFractionDigits: 2 })]: rounded to cents, ties away from zero;
    a negative value keeps its sign even when it rounds to zero. *)
Definition toLocaleString2 (x : Q) : string :=
  let c := Qfloor (Qabs x * 100 + (1 # 2)) in
  let fr := (c mod 100)%Z in
  string_of_list_ascii
    ((if Qlt_bool x 0 then ["-"%char] else [])
     ++ groupThousands (decimalDigits (c / 100))
     ++ ["."%char; digitChar (fr / 10); digitChar (fr mod 10)])%list.

(** The characters of [s] outside [cs]: [s.replace(/[...]/g, "")]. *)
Definition removeChars (cs : list ascii) (s : string) : list ascii :=
  filter (fun c => negb (existsb (Ascii.eqb c) cs)) (list_ascii_of_string s).

(** ** [src/components/step-two-details.tsx]: the text of the amount and share inputs *)

(** The [value] of the amount input: [`$${amount.toLocaleString(...)}`]. *)
Definition amountFieldText (amount : Q) : string := "$" ++ toLocaleString2 amount.

(** The [value] of the share input: [formatNumber(shares)]. *)
Definition sharesFieldText (shares : Z) : string := formatNumber shares.

(** [parseFloat(value.replace(/[,$]/g, ""))] in [handleAmountChange]. *)
Definition amountFieldNumber (value : string) : JSNumber :=
  parseFloat (removeChars [","%char; "$"%char] value).

(** [parseInt(value.replace(/,/g, ""))] in [handleSharesChange]. *)
Definition sharesFieldNumber (value : string) : option Z :=
  parseInt (removeChars [","%char] value).

(** ** [src/components/step-one-invest.tsx]: typing, presets and the upsell *)

(** [value.replace(/[^0-9.]/g, "")] *)
Definition cleanStepOne (value : string) : list ascii :=
  filter (fun c => isDigit c || Ascii.eqb c "."%char) (list_ascii_of_string value).

(** The amount set by [handleInputChange(value)].  [parseFloat] of the
    cleaned text is finite or [NaN] (it has no letters, so no
    [Infinity]); the last branch is never taken. *)
Definition handleInputChangeAmount (mode : DisplayMode) (config : InvestmentConfig)
    (value : string) : Q :=
  match parseFloat (cleanStepOne value) with
  | JSFinite q => stepOneInputAmount mode config (Some q)
  | JSNaN | JSInfinity _ => stepOneInputAmount mode config None
  end.

(** [showUpsell = nextTier && nextTier.amountNeeded <= 2000 && amount < 25000] *)
Definition showUpsell (config : InvestmentConfig) (amount : Q) : bool :=
  match getNextTierInfo amount config with
  | Some r => Qle_bool (amountNeeded r) 2000 && Qlt_bool amount 25000
  | None => false
  end.

(** The amount after a click on the upsell button, which is rendered
    only when [showUpsell]: [handleUpsellAccept] sets the amount to the
    next tier's threshold. *)
Definition upsellAccept (config : InvestmentConfig) (amount : Q) : Q :=
  if showUpsell config amount then
    match getNextTierInfo amount config with
    | Some r => nextThreshold r
    | None => amount
    end
  else amount.

(** A preset button is highlighted when [Math.abs(amount - preset) < 1]. *)
Definition presetSelected (amount preset : Q) : bool :=
  Qlt_bool (Qabs (amount - preset)) 1.

(** ** [src/lib/dealmaker.ts]: the access token of [getAccessToken] *)

(** [cachedToken]: [{ token, expiresAt }]; the token is [data.access_token]
    ([None] for [undefined]). *)
Record CachedToken := mkCachedToken {
  cachedTokenValue : option Json;
  cachedExpiresAt : JSNumber
}.

(** The outcome of the [fetch(TOKEN_URL, ...)] request. *)
Inductive TokenReply :=
| TokenFetchFailed                             (* [fetch] rejects *)
| TokenRejected (status : Z) (body : string)   (* [!res.ok]; body [""] when unreadable *)
| TokenBodyNotJson                             (* [res.json()] rejects *)
| TokenBody (data : Json).                     (* [res.json()] *)

(** The errors [getAccessToken] throws. *)
Inductive TokenError :=
| MissingClientCredentials
| AuthFailed (status : Z) (body : string)
| TokenFetchError
| TokenJsonError
| TokenTypeError.

Definition DEFAULT_SCOPES : string :=
  "deals.read deals.write deals.investors.read deals.investors.write companies.read companies.write webhooks.read webhooks.write".

Definition envValue (v : option string) : string :=
  match v with Some s => s | None => "" end.

(** The form fields of the token request; [scopes] is
    [process.env.DEALMAKER_SCOPES]. *)
Definition tokenParams (env : Env) (scopes : option string) : list (string * string) :=
  let scope := if envSet scopes then envValue scopes else DEFAULT_SCOPES in
  [("grant_type", "client_credentials");
   ("client_id", envValue (DEALMAKER_CLIENT_ID env));
   ("client_secret", envValue (DEALMAKER_CLIENT_SECRET env));
   ("scope", scope)].

(** The request branch of [getAccessToken()], after the cache check. *)
Definition requestAccessToken (cache : option CachedToken) (env : Env)
    (scopes : option string) (tReply : Q) (reply : TokenReply)
  : (TokenError + option Json) * option CachedToken * option (list (string * string)) :=
  if negb (envSet (DEALMAKER_CLIENT_ID env) && envSet (DEALMAKER_CLIENT_SECRET env))
  then (inl MissingClientCredentials, cache, None)
  else
  let params := tokenParams env scopes in
  match reply with
  | TokenFetchFailed => (inl TokenFetchError, cache, Some params)
  | TokenRejected s b => (inl (AuthFailed s b), cache, Some params)
  | TokenBodyNotJson => (inl TokenJsonError, cache, Some params)
  | TokenBody data =>
      match getProp data "access_token", getProp data "expires_in" with
      | inr tok, inr ex =>
          let c := mkCachedToken tok
                     (jsAdd (JSFinite tReply) (jsMul (toNumber ex) (JSFinite 1000))) in
          (inr tok, Some c, Some params)
      | _, _ => (inl TokenTypeError, cache, Some params)
      end
  end.

(** [getAccessToken()] from the cache [cachedToken]: the result (an
    error or the token), the new cache, and the token request sent, if
    any.  [tStart] is [Date.now()] at the call, [tReply] when the reply
    is read. *)
Definition getAccessToken (cache : option CachedToken) (env : Env) (scopes : option string)
    (tStart tReply : Q) (reply : TokenReply)
  : (TokenError + option Json) * option CachedToken * option (list (string * string)) :=
  match cache with
  | Some c =>
      if jsLt (JSFinite tStart) (jsSub (cachedExpiresAt c) (JSFinite 60000))
      then (inr (cachedTokenValue c), cache, None)
      else requestAccessToken cache env scopes tReply reply
  | None => requestAccessToken cache env scopes tReply reply
  end.

(** ** IEEE-754 binary64: [alignToSharePrice] and [calculateInvestment] on doubles

    The functions of [src/lib/dealmaker.ts] again, with every number a
    double and every operation rounded as JavaScript rounds it: [/], [*]
    and [+] are the Standard Library's [SpecFloat] operations at
    precision 53 and maximum exponent 1024, rounding to nearest, ties to
    even. *)
Module Binary64.

Definition double := SpecFloat.spec_float.

Definition prec : Z := 53.
Definition emax : Z := 1024.

Definition div : double -> double -> double := SpecFloat.SFdiv prec emax.
Definition mul : double -> double -> double := SpecFloat.SFmul prec emax.
Definition add : double -> double -> double := SpecFloat.SFadd prec emax.

(** [+0] *)
Definition zero : double := SpecFloat.S754_zero false.

(** The double nearest to the integer [n]. *)
Definition ofZ (n : Z) : double := SpecFloat.binary_normalize prec emax n 0 false.

(** The double nearest to [n / d] ([d > 0]): the value of a decimal
    literal such as [0.85] ([ofDecimal 85 100]), and of [parseFloat] of a
    decimal string. *)
Definition ofDecimal (n d : Z) : double :=
  match n with
  | Z0 => SpecFloat.S754_zero false
  | Zpos m => div (SpecFloat.S754_finite false m 0) (SpecFloat.S754_finite false (Z.to_pos d) 0)
  | Zneg m => div (SpecFloat.S754_finite true m 0) (SpecFloat.S754_finite false (Z.to_pos d) 0)
  end.

(** The exact value of a finite double. *)
Definition value (x : double) : option Q :=
  match x with
  | SpecFloat.S754_zero _ => Some 0
  | SpecFloat.S754_finite s m e =>
      Some (Qred ((if s then -1 else 1) * inject_Z (Zpos m) * Qpower 2 e))
  | _ => None
  end.

(** [Math.floor] / [Math.ceil]: the integer (a double) below / above the
    exact value; a zero result keeps the sign ([Math.ceil(-0.3)] is [-0]);
    zeros, infinities and [NaN] are returned as they are. *)
Definition roundWith (r : Q -> Z) (x : double) : double :=
  match x with
  | SpecFloat.S754_finite s m e =>
      SpecFloat.binary_normalize prec emax
        (r ((if s then -1 else 1) * inject_Z (Zpos m) * Qpower 2 e)) 0 s
  | _ => x
  end.

Definition floor : double -> double := roundWith Qfloor.
Definition ceil : double -> double := roundWith Qceiling.

(** [parseFloat(x.toFixed(2))]: [toFixed] picks the integer [n] with
    [n / 100] nearest to [|x|] (the larger one on a tie) and writes the
    sign when [x < 0]; from [10^21] on it writes [String(x)], which
    [parseFloat] reads back as [x]; [NaN] and the infinities read back as
    themselves; [-0] is written [0.00]. *)
Definition toFixed2 (x : double) : double :=
  match x with
  | SpecFloat.S754_finite s m e =>
      let v := inject_Z (Zpos m) * Qpower 2 e in
      if Qle_bool (inject_Z (10 ^ 21)) v then x
      else
        let n := Qfloor (v * 100 + (1 # 2)) in
        if (n =? 0)%Z then SpecFloat.S754_zero s
        else ofDecimal (if s then (- n)%Z else n) 100
  | SpecFloat.S754_zero _ => SpecFloat.S754_zero false
  | _ => x
  end.

(** [alignToSharePrice(amount, sharePrice)] *)
Definition alignToSharePrice (amount sharePrice : double) : double :=
  if SpecFloat.SFleb sharePrice zero || SpecFloat.SFleb amount zero then amount
  else
    let shares := ceil (div amount sharePrice) in
    toFixed2 (mul shares sharePrice).

(** [{ threshold, bonusPercent }] *)
Record VolumeTier := mkTier {
  threshold : double;
  bonusPercent : double
}.

(** The fields of [InvestmentConfig] that [calculateInvestment] reads
    ([const { sharePrice, investorFeePercent, volumeTiers } = config]). *)
Record InvestmentConfig := mkConfig {
  sharePrice : double;
  investorFeePercent : double;
  volumeTiers : list VolumeTier
}.

(** [interface InvestmentCalculation] *)
Record InvestmentCalculation := mkCalculation {
  amount : double;
  baseShares : double;
  calcBonusPercent : double;
  bonusShares : double;
  totalShares : double;
  effectiveSharePrice : double;
  investorFee : double;
  totalWithFee : double
}.

(** The [for ... of] loop with [break]: the first tier, in the order
    given, with [amount >= tier.threshold]. *)
Fixpoint tierLoop (amt : double) (tiers : list VolumeTier) : double :=
  match tiers with
  | [] => zero
  | t :: rest => if SpecFloat.SFleb (threshold t) amt then bonusPercent t else tierLoop amt rest
  end.

(** [calculateInvestment(amount, config)] *)
Definition calculateInvestment (amt : double) (config : InvestmentConfig)
    : InvestmentCalculation :=
  let base := floor (div amt (sharePrice config)) in
  let bp := tierLoop amt (volumeTiers config) in
  let bonus := floor (mul base (div bp (ofZ 100))) in
  let total := add base bonus in
  let effective := if SpecFloat.SFltb zero total then div amt total else sharePrice config in
  let fee := mul (mul base (sharePrice config)) (div (investorFeePercent config) (ofZ 100)) in
  {| amount := amt; baseShares := base; calcBonusPercent := bp; bonusShares := bonus;
     totalShares := total; effectiveSharePrice := effective; investorFee := fee;
     totalWithFee := add amt fee |}.

End Binary64.

(** ** Auxiliary definitions for the statements *)

(** The response with the value of [key] at the top of its JSON body
    replaced by [null]. *)
Definition clearField (key : string) (r : HttpResult) : HttpResult :=
  match r with
  | Respond s (JObj l) =>
      Respond s (JObj (map (fun kv => if String.eqb key (fst kv) then (fst kv, JNull) else kv) l))
  | _ => r
  end.

(** The runtime with every access-link fetch rejected with [e]. *)
Definition failAccessLink (rt : Runtime) (e : ApiError) : Runtime :=
  {| searchDealInvestors := searchDealInvestors rt;
     createInvestorProfile := createInvestorProfile rt;
     createDealInvestor := createDealInvestor rt;
     updateDealInvestor := updateDealInvestor rt;
     getInvestorAccessLink := fun _ _ => Fail e;
     jsonParse := jsonParse rt;
     parseInt10 := parseInt10 rt;
     jsString := jsString rt |}.

(** The sections before a section in [Investment, Contact, Confirmation,
    Payment], as the wizard's invariant lists them. *)
Definition sectionsBefore (s : Section) : list Section :=
  match s with
  | investment => []
  | contact => [investment]
  | confirmation => [investment; contact]
  | payment => [investment; contact; confirmation]
  end.

(** The section after a section in the same order. *)
Definition nextSection (s : Section) : option Section :=
  match s with
  | investment => Some contact
  | contact => Some confirmation
  | confirmation => Some payment
  | payment => None
  end.

(** [parseFloat(...) || 0] as the amount handlers read it. *)
Definition parsedOrZero (p : option Q) : Q :=
  match p with Some q => if Qeq_bool q 0 then 0 else q | None => 0 end.

(** A configuration that lists the fallback tiers in ascending order. *)
Definition ascendingTiersConfig : InvestmentConfig := {|
  sharePrice := 85 # 100;
  minInvestment := 99875 # 100;
  maxInvestment := None;
  investorFeePercent := 2;
  campaignRaised := 14000000;
  campaignGoal := 17000000;
  investorsCount := None;
  currency := None;
  currencySymbol := None;
  securityType := None;
  presetAmounts := presetAmounts FALLBACK_CONFIG;
  volumeTiers := [mkTier 5000 5; mkTier 10000 10; mkTier 25000 15]
|}.

(** A deployment with all three credentials set. *)
Definition sampleEnv : Env := mkEnv (Some "client") (Some "secret") (Some "1234").

(** A provider that rejects every call, without a response body. *)
Definition offlineRuntime : Runtime := {|
  searchDealInvestors := fun _ _ => Fail (mkApiError None None);
  createInvestorProfile := fun _ _ => Fail (mkApiError None None);
  createDealInvestor := fun _ _ _ => Fail (mkApiError None None);
  updateDealInvestor := fun _ _ _ => Fail (mkApiError None None);
  getInvestorAccessLink := fun _ _ => Fail (mkApiError None None);
  jsonParse := fun _ => None;
  parseInt10 := fun _ => None;
  jsString := fun _ => "" |}.

Definition sectionIndex (s : Section) : nat :=
  match s with investment => 0 | contact => 1 | confirmation => 2 | payment => 3 end%nat.

Definition sectionsInvariant (st : StepTwoState) : Prop :=
  exists k, (k <= 3)%nat /\ completedSections st = firstn k sectionOrder /\
            (sectionIndex (expandedSection st) <= k)%nat.

(** ** Lemmas on the numeric model *)

Lemma Qlt_bool_iff (x y : Q) : Qlt_bool x y = true <-> x < y.
Proof.
  unfold Qlt_bool. rewrite negb_true_iff. split.
  - intros H. apply Qnot_le_lt. intros H'. apply Qle_bool_iff in H'. congruence.
  - intros H. destruct (Qle_bool y x) eqn:E; [|reflexivity].
    apply Qle_bool_iff in E. exfalso. exact (Qlt_not_le _ _ H E).
Qed.

Lemma Qle_bool_false (x y : Q) : Qle_bool x y = false <-> y < x.
Proof.
  split.
  - intros H. apply Qnot_le_lt. intros H'. apply Qle_bool_iff in H'. congruence.
  - intros H. destruct (Qle_bool x y) eqn:E; [|reflexivity].
    apply Qle_bool_iff in E. exfalso. exact (Qlt_not_le _ _ H E).
Qed.

Lemma Qfloor_unique (q : Q) (z : Z) :
  inject_Z z <= q -> q < inject_Z z + 1 -> Qfloor q = z.
Proof.
  intros H1 H2.
  pose proof (Qfloor_le q) as A. pose proof (Qlt_floor q) as B.
  rewrite inject_Z_plus in B. change (inject_Z 1) with 1 in B.
  assert (C : (z < Qfloor q + 1)%Z).
  { rewrite Zlt_Qlt, inject_Z_plus. change (inject_Z 1) with 1. lra. }
  assert (D : (Qfloor q < z + 1)%Z).
  { rewrite Zlt_Qlt, inject_Z_plus. change (inject_Z 1) with 1. lra. }
  lia.
Qed.

Lemma Qceiling_pos (q : Q) : 0 < q -> (1 <= Qceiling q)%Z.
Proof.
  intros H. pose proof (Qle_ceiling q) as A.
  assert (B : (0 < Qceiling q)%Z) by (rewrite Zlt_Qlt; change (inject_Z 0) with 0; lra).
  lia.
Qed.

(** [roundCents] leaves a whole number of cents unchanged. *)
Lemma roundCents_cents (m : Z) (y : Q) :
  (0 <= m)%Z -> y == inject_Z m / 100 -> roundCents y = inject_Z m / 100.
Proof.
  intros Hm Hy.
  assert (Hz : 0 <= inject_Z m)
    by (change 0 with (inject_Z 0); rewrite <- Zle_Qle; exact Hm).
  assert (Hnn : 0 <= y)
    by (rewrite Hy; apply Qle_shift_div_l; [reflexivity | lra]).
  assert (H100 : inject_Z m / 100 * 100 == inject_Z m) by (field; discriminate).
  unfold roundCents.
  replace (Qlt_bool y 0) with false
    by (symmetry; unfold Qlt_bool; rewrite negb_false_iff; apply Qle_bool_iff; exact Hnn).
  rewrite (Qfloor_unique _ m); [reflexivity | rewrite Hy, H100; lra | rewrite Hy, H100; lra].
Qed.

Lemma align_positive_branch (x p : Q) :
  0 < p -> 0 < x ->
  alignToSharePrice x p = roundCents (inject_Z (Qceiling (x / p)) * p).
Proof.
  intros Hp Hx. unfold alignToSharePrice.
  rewrite (proj2 (Qle_bool_false p 0) Hp), (proj2 (Qle_bool_false x 0) Hx).
  reflexivity.
Qed.

Lemma align_nonpositive_amount (x p : Q) : x <= 0 -> alignToSharePrice x p = x.
Proof.
  intros Hx. unfold alignToSharePrice.
  rewrite (proj2 (Qle_bool_iff x 0) Hx), orb_true_r. reflexivity.
Qed.

(** ** Claims on the investment math *)

(** C1 (code defect): [calculateInvestment] takes the first tier of
    [volumeTiers] in the order supplied whose threshold the amount meets,
    not the highest such tier.  With the fallback tiers listed in ascending
    order, an amount of 30000 meets all three tiers and gets the 5% of the
    lowest one; with the fallback's descending order it gets 15%. *)
Theorem calculateInvestment_bonus_follows_supplied_order :
  calcBonusPercent (calculateInvestment 30000 ascendingTiersConfig) = 5 /\
  calcBonusPercent (calculateInvestment 30000 FALLBACK_CONFIG) = 15.
Proof. split; reflexivity. Qed.

(** C2 (code defect): four of the seven fallback presets are not a whole
    number of shares at $0.85: [alignToSharePrice] moves 25000.25,
    50000.50, 100000.15 and 250000.25 up to 25001.05, 50001.25, 100000.80
    and 250000.30. *)
Theorem fallback_presets_not_share_aligned :
  filter (fun p => negb (Qeq_bool (alignToSharePrice p (sharePrice FALLBACK_CONFIG)) p))
    (presetAmounts FALLBACK_CONFIG)
  = [2500025 # 100; 5000050 # 100; 10000015 # 100; 25000025 # 100] /\
  map (fun p => alignToSharePrice p (sharePrice FALLBACK_CONFIG))
    [2500025 # 100; 5000050 # 100; 10000015 # 100; 25000025 # 100]
  = [2500105 # 100; 5000125 # 100; 10000080 # 100; 25000030 # 100].
Proof. split; vm_compute; reflexivity. Qed.

(** C3 (code defect): on doubles, [alignToSharePrice] is not idempotent
    at the configured share price 0.85: 11 is aligned to 11.05 (13 whole
    shares, [parseFloat((13 * 0.85).toFixed(2))]), but 11.05 / 0.85
    evaluates to a double above 13, so aligning 11.05 again charges for
    14 shares and gives 11.9. *)
Theorem alignToSharePrice_double_not_idempotent :
  let p := Binary64.ofDecimal 85 100 in
  let a := Binary64.alignToSharePrice (Binary64.ofZ 11) p in
  a = Binary64.ofDecimal 1105 100 /\
  Binary64.toFixed2 (Binary64.mul (Binary64.ofZ 13) p) = a /\
  (exists q, Binary64.value (Binary64.div a p) = Some q /\ 13 < q) /\
  Binary64.alignToSharePrice a p = Binary64.ofDecimal 119 10 /\
  Binary64.alignToSharePrice a p <> a.
Proof.
  cbv zeta. split; [vm_compute; reflexivity |].
  split; [vm_compute; reflexivity |].
  split; [eexists; split; [vm_compute; reflexivity | apply Qlt_bool_iff; vm_compute; reflexivity] |].
  split; [vm_compute; reflexivity |].
  vm_compute. discriminate.
Qed.

(** C4 (code defect): on doubles, the bonus shares are not
    [floor(baseShares * bonusPercent / 100)]: with share price 1, a 29%
    tier at threshold 100 and amount 100, the base is 100 shares and the
    formula gives 29 bonus shares, but the code's
    [Math.floor(baseShares * (bonusPercent / 100))] floors
    [100 * 0.29 = 28.999999999999996] to 28, so the total is 128. *)
Theorem calculateInvestment_double_bonus_short :
  let config := Binary64.mkConfig (Binary64.ofZ 1) (Binary64.ofZ 2)
                  [Binary64.mkTier (Binary64.ofZ 100) (Binary64.ofZ 29)] in
  let c := Binary64.calculateInvestment (Binary64.ofZ 100) config in
  Binary64.value (Binary64.baseShares c) = Some 100 /\
  Binary64.value (Binary64.calcBonusPercent c) = Some 29 /\
  Qfloor (100 * 29 / 100) = 29%Z /\
  Binary64.value (Binary64.bonusShares c) = Some 28 /\
  Binary64.value (Binary64.totalShares c) = Some 128.
Proof. cbv zeta. repeat split; vm_compute; reflexivity. Qed.

(** ** The sorted tiers of [getNextTierInfo] *)

Definition tierLe (a b : VolumeTier) : Prop := threshold a <= threshold b.

Lemma insertTier_perm (t : VolumeTier) (l : list VolumeTier) :
  Permutation (insertTier t l) (t :: l).
Proof.
  induction l as [|u l IH]; simpl; [reflexivity |].
  destruct (Qle_bool (threshold t) (threshold u)); [reflexivity |].
  rewrite IH. apply perm_swap.
Qed.

Lemma sortTiers_perm (l : list VolumeTier) : Permutation (sortTiers l) l.
Proof.
  induction l as [|t l IH]; simpl; [reflexivity |].
  rewrite insertTier_perm, IH. reflexivity.
Qed.

Lemma insertTier_sorted (t : VolumeTier) (l : list VolumeTier) :
  StronglySorted tierLe l -> StronglySorted tierLe (insertTier t l).
Proof.
  induction l as [|u l IH]; simpl; intros Hs.
  - repeat constructor.
  - inversion Hs as [|? ? Hs' Hall]; subst.
    destruct (Qle_bool (threshold t) (threshold u)) eqn:E.
    + apply Qle_bool_iff in E.
      constructor; [exact Hs |].
      constructor; [exact E |].
      eapply Forall_impl; [| exact Hall]. unfold tierLe. intros a Ha. lra.
    + apply Qle_bool_false in E.
      constructor; [apply IH; exact Hs' |].
      apply (Permutation_Forall (Permutation_sym (insertTier_perm t l))).
      constructor; [unfold tierLe; lra | exact Hall].
Qed.

Lemma sortTiers_sorted (l : list VolumeTier) : StronglySorted tierLe (sortTiers l).
Proof.
  induction l as [|t l IH]; simpl; [constructor | apply insertTier_sorted, IH].
Qed.

Lemma firstAbove_none (amt : Q) (l : list VolumeTier) :
  firstAbove amt l = None <-> Forall (fun t => threshold t <= amt) l.
Proof.
  induction l as [|t l IH]; simpl.
  - split; constructor.
  - destruct (Qlt_bool amt (threshold t)) eqn:E.
    + split; [discriminate |]. intros H. inversion H as [|? ? Ht]; subst.
      apply Qlt_bool_iff in E. exfalso. exact (Qlt_not_le _ _ E Ht).
    + rewrite IH. split.
      * intros H. constructor; [| exact H].
        apply Qnot_lt_le. intros H'. apply Qlt_bool_iff in H'. congruence.
      * intros H. inversion H; assumption.
Qed.

Lemma firstAbove_some (amt : Q) (l : list VolumeTier) (r : NextTierInfo) :
  StronglySorted tierLe l -> firstAbove amt l = Some r ->
  In (mkTier (nextThreshold r) (nextBonusPercent r)) l /\
  amt < nextThreshold r /\
  (forall t, In t l -> amt < threshold t -> nextThreshold r <= threshold t) /\
  amountNeeded r = nextThreshold r - amt.
Proof.
  induction l as [|t l IH]; simpl; intros Hs H; [discriminate |].
  inversion Hs as [|? ? Hs' Hall]; subst.
  destruct (Qlt_bool amt (threshold t)) eqn:E.
  - injection H as <-. simpl. apply Qlt_bool_iff in E.
    split; [left; destruct t; reflexivity |].
    split; [exact E |]. split; [| reflexivity].
    intros u [<- | Hu] _; [apply Qle_refl |].
    rewrite Forall_forall in Hall. exact (Hall u Hu).
  - destruct (IH Hs' H) as (Hin & Hlt & Hmin & Hneed).
    split; [right; exact Hin |]. split; [exact Hlt |]. split; [| exact Hneed].
    intros u [<- | Hu] Hau; [| exact (Hmin u Hu Hau)].
    apply Qlt_bool_iff in Hau. congruence.
Qed.

(** C6: [getNextTierInfo] returns [null] exactly when the amount meets
    every tier's threshold (is at least the highest one); otherwise it
    returns a configured tier whose threshold is the smallest one above
    the amount, with [amountNeeded = threshold - amount > 0]. *)
Theorem getNextTierInfo_spec (amt : Q) (config : InvestmentConfig) :
  (getNextTierInfo amt config = None <->
   Forall (fun t => threshold t <= amt) (volumeTiers config)) /\
  (forall r, getNextTierInfo amt config = Some r ->
     In (mkTier (nextThreshold r) (nextBonusPercent r)) (volumeTiers config) /\
     amt < nextThreshold r /\
     (forall t, In t (volumeTiers config) -> amt < threshold t ->
                nextThreshold r <= threshold t) /\
     amountNeeded r = nextThreshold r - amt /\
     0 < amountNeeded r).
Proof.
  unfold getNextTierInfo. split.
  - rewrite firstAbove_none. split; intros H;
      [ exact (Permutation_Forall (sortTiers_perm _) H)
      | exact (Permutation_Forall (Permutation_sym (sortTiers_perm _)) H) ].
  - intros r H.
    destruct (firstAbove_some amt _ r (sortTiers_sorted _) H) as (Hin & Hlt & Hmin & Hneed).
    split; [exact (Permutation_in _ (sortTiers_perm _) Hin) |].
    split; [exact Hlt |].
    split; [intros t Ht; apply Hmin; exact (Permutation_in _ (Permutation_sym (sortTiers_perm _)) Ht) |].
    split; [exact Hneed |]. rewrite Hneed. lra.
Qed.

(** ** The Step Two wizard *)

Lemma section_eqb_eq (a b : Section) : section_eqb a b = true <-> a = b.
Proof. destruct a, b; simpl; split; congruence. Qed.

Lemma includes_In (l : list Section) (s : Section) : includes l s = true <-> In s l.
Proof.
  unfold includes. rewrite existsb_exists. split.
  - intros (x & Hx & E). apply section_eqb_eq in E. subst. exact Hx.
  - intros H. exists s. split; [exact H | apply section_eqb_eq; reflexivity].
Qed.

Lemma slice_prior (s : Section) :
  slice0 sectionOrder (indexOf sectionOrder s) = sectionsBefore s.
Proof. destruct s; reflexivity. Qed.

Lemma isSectionAccessible_iff (st : StepTwoState) (s : Section) :
  isSectionAccessible st s = true <->
  In s (completedSections st) \/
  (forall x, In x (sectionsBefore s) -> In x (completedSections st)).
Proof.
  unfold isSectionAccessible. cbv zeta. rewrite slice_prior.
  destruct (includes (completedSections st) s) eqn:E.
  - apply includes_In in E. split; [left; exact E | reflexivity].
  - rewrite forallb_forall. split.
    + intros H. right. intros x Hx. apply includes_In, H, Hx.
    + intros [H | H]; [apply includes_In in H; congruence |].
      intros x Hx. apply includes_In, H, Hx.
Qed.

Lemma handleSectionContinue_completed (s : Section) (st : StepTwoState) :
  completedSections (handleSectionContinue s st) =
  if includes (completedSections st) s then completedSections st
  else (completedSections st ++ [s])%list.
Proof.
  unfold handleSectionContinue. simpl.
  destruct (includes (completedSections st) s); reflexivity.
Qed.

Lemma handleSectionContinue_expanded (s : Section) (st : StepTwoState) :
  expandedSection (handleSectionContinue s st) =
  match nextSection s with Some n => n | None => expandedSection st end.
Proof. destruct s; reflexivity. Qed.

Lemma handleSectionContinue_nodup (s : Section) (st : StepTwoState) :
  NoDup (completedSections st) -> NoDup (completedSections (handleSectionContinue s st)).
Proof.
  intros H. rewrite handleSectionContinue_completed.
  destruct (includes (completedSections st) s) eqn:E; [exact H |].
  apply (Permutation_NoDup (Permutation_cons_append _ _)).
  constructor; [| exact H].
  intros Hin. apply includes_In in Hin. congruence.
Qed.

Ltac destruct_matches :=
  repeat match goal with
  | |- context [match ?x with _ => _ end] => destruct x
  end.

Lemma stepTwo_nodup (config : InvestmentConfig) (ev : StepTwoEvent) (st : StepTwoState) :
  NoDup (completedSections st) -> NoDup (completedSections (stepTwo config ev st)).
Proof.
  intros H.
  destruct ev; unfold stepTwo, toggleSection, continueContact, submitPayment,
    handleAmountChange, handleSharesChange, changeInvestorType, editContact,
    blurFirstName, blurLastName;
    destruct_matches;
    try (apply handleSectionContinue_nodup); simpl; exact H.
Qed.

Lemma reachable_nodup (config : InvestmentConfig) (a0 : Q) (em : string) (st : StepTwoState) :
  reachable config a0 em st -> NoDup (completedSections st).
Proof.
  induction 1 as [| ev st _ IH]; [constructor | apply stepTwo_nodup, IH].
Qed.

(** C5: in every reachable state of the wizard the completed list has no
    duplicates; a section is accessible iff it is completed or every
    section before it in [Investment, Contact, Confirmation, Payment] is;
    completing a section adds it when absent (keeping the list free of
    duplicates) and opens the next section, unless it is the last one. *)
Theorem wizard_section_state_machine (config : InvestmentConfig) (a0 : Q) (em : string)
    (st : StepTwoState) (Hr : reachable config a0 em st) :
  NoDup (completedSections st) /\
  (forall s, isSectionAccessible st s = true <->
     In s (completedSections st) \/
     (forall x, In x (sectionsBefore s) -> In x (completedSections st))) /\
  (forall s,
     let st' := handleSectionContinue s st in
     NoDup (completedSections st') /\
     (In s (completedSections st) -> completedSections st' = completedSections st) /\
     (~ In s (completedSections st) -> completedSections st' = (completedSections st ++ [s])%list) /\
     expandedSection st' =
       match nextSection s with Some n => n | None => expandedSection st end).
Proof.
  pose proof (reachable_nodup _ _ _ _ Hr) as Hnd.
  split; [exact Hnd |]. split; [apply isSectionAccessible_iff |].
  intros s. cbv zeta.
  split; [apply handleSectionContinue_nodup, Hnd |].
  rewrite handleSectionContinue_completed, handleSectionContinue_expanded.
  split; [intros Hin; apply includes_In in Hin; rewrite Hin; reflexivity |].
  split; [| reflexivity].
  intros Hout. destruct (includes (completedSections st) s) eqn:E; [| reflexivity].
  apply includes_In in E. contradiction.
Qed.

Ltac solve_kept :=
  first
    [ left; reflexivity
    | right; eexists; split; reflexivity
    | left; split; reflexivity
    | right; left; eexists; reflexivity
    | right; right; eexists; reflexivity ].

(** C7: changing the investor type (inside the open Contact section)
    empties the six Contact text fields and the Contact errors and touched
    flags; every other action, collapsing and re-opening sections included,
    leaves each entered value (Contact fields, e-mail, investor type,
    amount and shares) as it was, except the one value the action itself
    edits. *)
Theorem contact_data_cleared_only_by_type_change (config : InvestmentConfig)
    (st : StepTwoState) (v : string) (Hc : expandedSection st = contact) :
  (let st' := stepTwo config (SelectInvestorType v) st in
   investorType st' = v /\ (forall f, contactValue st' f = "") /\
   contactErrors st' = noErrors /\ contactTouched st' = noneTouched /\
   email st' = email st /\ st_amount st' = st_amount st /\ st_shares st' = st_shares st) /\
  (forall ev st0, (forall w, ev <> SelectInvestorType w) ->
   let st1 := stepTwo config ev st0 in
   (forall f, contactValue st1 f = contactValue st0 f \/
              exists w, ev = EditContact f w /\ contactValue st1 f = w) /\
   email st1 = email st0 /\ investorType st1 = investorType st0 /\
   ((st_amount st1 = st_amount st0 /\ st_shares st1 = st_shares st0) \/
    (exists p, ev = AmountInput p) \/ (exists p, ev = SharesInput p))).
Proof.
  split.
  - cbv zeta. unfold stepTwo. rewrite Hc. simpl.
    split; [reflexivity |]. split; [intros f; destruct f; reflexivity |].
    repeat split; reflexivity.
  - intros ev st0 Hne. cbv zeta.
    destruct ev;
      try (exfalso; eapply Hne; reflexivity);
      unfold stepTwo, toggleSection, continueContact, submitPayment,
        handleAmountChange, handleSharesChange, editContact,
        blurFirstName, blurLastName;
      destruct_matches;
      (split; [intros f0; destruct f0; simpl; solve_kept |]);
      simpl; (split; [reflexivity |]); (split; [reflexivity |]); solve_kept.
Qed.

(** C10: in Step Two, an edit of the dollar amount commits the parsed
    value itself (no alignment to whole shares) and sets the share count
    to [floor(amount / sharePrice)]; an edit of the share count commits
    [shares * sharePrice] with no rounding.  At the fallback price, typing
    1000 commits 1000, which is not a whole number of shares, where Step
    One would commit 1000.45 (1177 shares). *)
Theorem stepTwo_amount_and_share_edits (config : InvestmentConfig) (st : StepTwoState)
    (Hc : expandedSection st = investment) (p : option Q) (n : option Z) :
  (let sa := stepTwo config (AmountInput p) st in
   st_amount sa = parsedOrZero p /\
   st_shares sa = Qfloor (st_amount sa / sharePrice config)) /\
  (let k := match n with Some k => k | None => 0%Z end in
   let ss := stepTwo config (SharesInput n) st in
   st_shares ss = k /\ st_amount ss = inject_Z k * sharePrice config) /\
  (let s2 := stepTwo FALLBACK_CONFIG (AmountInput (Some 1000))
               (initStepTwo FALLBACK_CONFIG (250070 # 100) "investor@example.com") in
   st_amount s2 = 1000 /\
   Qfloor (st_amount s2 / sharePrice FALLBACK_CONFIG)
     <> Qceiling (st_amount s2 / sharePrice FALLBACK_CONFIG) /\
   stepOneInputAmount dollars FALLBACK_CONFIG (Some 1000) = 100045 # 100).
Proof.
  split; [| split].
  - cbv zeta. unfold stepTwo. rewrite Hc. simpl. split; reflexivity.
  - cbv zeta. unfold stepTwo. rewrite Hc. simpl. split; reflexivity.
  - cbv zeta. vm_compute. split; [reflexivity |]. split; [discriminate | reflexivity].
Qed.

(** ** The API routes *)

(** Every route answers 503 with an error body when the credentials are
    not all set. *)
Lemma routes_unconfigured_503 (rt : Runtime) (env : Env) (req : option Json) (id : string) :
  isDealmakerConfigured env = false ->
  (exists m, createEarly rt env req = respondError m 503) /\
  (exists m, createFull rt env req = respondError m 503) /\
  (exists m, patchInvestor rt env req = respondError m 503) /\
  (exists m, completeInvestor rt env req = respondError m 503) /\
  (exists m, resumeInvestor rt env req = respondError m 503) /\
  (exists m, searchInvestor rt env req = respondError m 503) /\
  (exists m, accessLinkRoute rt env id = respondError m 503).
Proof.
  intros H.
  unfold createEarly, createFull, patchInvestor, completeInvestor, resumeInvestor,
    searchInvestor, accessLinkRoute.
  rewrite H. repeat split; eexists; reflexivity.
Qed.

(** With credentials set, for every request body other than [null] and
    every provider behaviour: the create handler answers 400 ("Email and
    investment amount are required.") when the body's [email] or
    [investmentAmount] is falsy, and the complete handler answers 400
    ("Missing required fields.") when [investorId], [email], [firstName]
    or [lastName] is falsy; the resume and search handlers answer 400
    exactly when [email] is falsy, and the access-link handler exactly
    when the route id is empty. *)
Lemma routes_missing_field_400 (rt : Runtime) (env : Env) (body : Json) (id : string)
    (Henv : isDealmakerConfigured env = true) (Hb : body <> JNull) :
  ((truthy (field body "email") = false \/ truthy (field body "investmentAmount") = false) ->
   createEarly rt env (Some body)
   = respondError (JStr "Email and investment amount are required.") 400) /\
  ((truthy (field body "investorId") = false \/ truthy (field body "email") = false \/
    truthy (field body "firstName") = false \/ truthy (field body "lastName") = false) ->
   completeInvestor rt env (Some body) = respondError (JStr "Missing required fields.") 400) /\
  (truthy (field body "email") = false ->
   resumeInvestor rt env (Some body) = respondError (JStr "Email is required.") 400 /\
   searchInvestor rt env (Some body) = respondError (JStr "Email is required.") 400) /\
  (statusOf (resumeInvestor rt env (Some body)) = Some 400%Z <->
   truthy (field body "email") = false) /\
  (statusOf (searchInvestor rt env (Some body)) = Some 400%Z <->
   truthy (field body "email") = false) /\
  (statusOf (accessLinkRoute rt env id) = Some 400%Z <-> id = "").
Proof.
  split; [| split; [| split; [| split; [| split]]]].
  - intros H. unfold createEarly. rewrite Henv.
    destruct body; try congruence; cbv zeta;
      destruct H as [H | H]; rewrite H; rewrite ?orb_true_r; reflexivity.
  - intros H. unfold completeInvestor. rewrite Henv.
    destruct body; try congruence; cbv zeta;
      destruct H as [H | [H | [H | H]]]; rewrite H; rewrite ?orb_true_r; reflexivity.
  - intros H. unfold resumeInvestor, searchInvestor. rewrite Henv.
    destruct body; try congruence; cbv zeta; rewrite H; split; reflexivity.
  - unfold resumeInvestor. rewrite Henv.
    destruct body; try congruence; cbv zeta;
      (destruct (truthy (field _ "email")) eqn:E; [| split; reflexivity]);
      (split; [| discriminate]); simpl negb; cbv iota; unfold bindO;
      (destruct (searchDealInvestors _ _ _); [destruct (findFirst _ _) |]); discriminate.
  - unfold searchInvestor. rewrite Henv.
    destruct body; try congruence; cbv zeta;
      (destruct (truthy (field _ "email")) eqn:E; [| split; reflexivity]);
      (split; [| discriminate]); simpl negb; cbv iota; unfold bindO;
      (destruct (searchDealInvestors _ _ _); [destruct (sortByIdDesc _) |]); discriminate.
  - unfold accessLinkRoute. rewrite Henv. simpl negb. cbv iota.
    destruct (String.eqb_spec id "") as [-> | Hne]; [split; reflexivity |].
    split; [| intros E; contradiction].
    destruct (getInvestorAccessLink _ _ _); discriminate.
Qed.

(** C8 (code defect): the [PATCH] handler never answers 400, even for a
    body without the [investorId] it needs: it forwards the request to the
    provider and answers 200 or 500. *)
Theorem patch_without_investorId_not_400 (rt : Runtime) (env : Env)
    (Henv : isDealmakerConfigured env = true) :
  statusOf (patchInvestor rt env (Some (JObj []))) = Some 200%Z \/
  statusOf (patchInvestor rt env (Some (JObj []))) = Some 500%Z.
Proof.
  unfold patchInvestor. rewrite Henv. simpl.
  destruct (updateDealInvestor rt _ _ _); [left | right]; reflexivity.
Qed.

Lemma joinWith_failAccessLink (rt : Runtime) (e : ApiError) (sep : string) (l : list Json) :
  joinWith (failAccessLink rt e) sep l = joinWith rt sep l.
Proof.
  induction l as [| x l IH]; [reflexivity |].
  destruct l; simpl in *; [reflexivity | rewrite IH; reflexivity].
Qed.

Lemma createFullMessage_failAccessLink (rt : Runtime) (e : ApiError) (body : Json)
    (e' : ApiError) :
  createFullMessage (failAccessLink rt e) body e' = createFullMessage rt body e'.
Proof.
  unfold createFullMessage.
  assert (Hm : forall l : list (string * Json),
    map (fun '(f, messages) =>
           match messages with
           | JArr ms => Some (fieldLabel f ++ ": " ++ joinWith (failAccessLink rt e) ", " ms)
           | _ => None
           end) l =
    map (fun '(f, messages) =>
           match messages with
           | JArr ms => Some (fieldLabel f ++ ": " ++ joinWith rt ", " ms)
           | _ => None
           end) l).
  { intros l. apply map_ext. intros [f m].
    destruct m; try rewrite joinWith_failAccessLink; reflexivity. }
  cbv zeta.
  change (jsonParse (failAccessLink rt e)) with (jsonParse rt).
  change (jsString (failAccessLink rt e)) with (jsString rt).
  destruct (match errBody e' with
            | Some rb => _ | None => _ end) as [apiErrors userMessage].
  rewrite Hm. reflexivity.
Qed.

(** Case analysis on the scrutinees that are variables or applications
    (not [match]es), so that the two sides of an equation split together. *)
Ltac crush_routes :=
  repeat (simpl; rewrite ?createFullMessage_failAccessLink; try reflexivity;
          try match goal with
              | |- context [match ?x with _ => _ end] =>
                  lazymatch x with
                  | ?f _ => destruct x
                  | _ => tryif is_var x then destruct x else fail
                  end
              end).

(** C9: a failed access-link fetch never changes what the full create,
    complete and resume routes answer, except that the redirect URL
    ([paymentUrl], [accessLink]) is [null]: the answer with every
    access-link fetch failing is the answer with a working fetch, that
    field set to [null].  In particular a success reporting the investor
    stays a success with the same status. *)
Theorem access_link_failure_only_nulls_url (rt : Runtime) (env : Env)
    (req : option Json) (e : ApiError) :
  createFull (failAccessLink rt e) env req = clearField "paymentUrl" (createFull rt env req) /\
  completeInvestor (failAccessLink rt e) env req =
    clearField "paymentUrl" (completeInvestor rt env req) /\
  resumeInvestor (failAccessLink rt e) env req =
    clearField "accessLink" (resumeInvestor rt env req).
Proof.
  split; [| split].
  - unfold createFull, accessLinkOrNull, bindO. crush_routes.
  - unfold completeInvestor, accessLinkOrNull, bindO. crush_routes.
  - unfold resumeInvestor, accessLinkOrNull, bindO. crush_routes.
Qed.

(** ** The share input, the wizard sections and the submitted state *)

Lemma filter_all_true {A} (f : A -> bool) (l : list A) :
  Forall (fun x => f x = true) l -> filter f l = l.
Proof. induction 1; simpl; [reflexivity | rewrite H, IHForall; reflexivity]. Qed.

Lemma filter_rev_comm {A} (f : A -> bool) (l : list A) : filter f (rev l) = rev (filter f l).
Proof.
  induction l as [| x l IH]; [reflexivity |].
  simpl. rewrite filter_app, IH. simpl. destruct (f x); simpl; [reflexivity | apply app_nil_r].
Qed.

Lemma groupRev_filter (f : ascii -> bool) (l : list ascii) :
  f ","%char = false -> filter f (groupRev l) = filter f l.
Proof.
  intros Hf. remember (List.length l) as n eqn:Hn.
  revert l Hn. induction n as [n IH] using lt_wf_ind. intros l Hn.
  destruct l as [| a [| b [| c [| d r]]]]; try reflexivity.
  change (groupRev (a :: b :: c :: d :: r)) with (a :: b :: c :: ","%char :: groupRev (d :: r)).
  change (a :: b :: c :: ","%char :: groupRev (d :: r))
    with ([a; b; c; ","%char] ++ groupRev (d :: r))%list.
  change (a :: b :: c :: d :: r) with ([a; b; c] ++ (d :: r))%list.
  rewrite !filter_app, (IH (List.length (d :: r))) by (simpl in *; lia).
  f_equal. simpl. rewrite Hf. destruct (f a), (f b), (f c); reflexivity.
Qed.

Lemma groupThousands_filter (f : ascii -> bool) (ds : list ascii) :
  f ","%char = false -> Forall (fun c => f c = true) ds -> filter f (groupThousands ds) = ds.
Proof.
  intros Hf H. unfold groupThousands.
  rewrite filter_rev_comm, groupRev_filter, filter_rev_comm, rev_involutive by exact Hf.
  apply filter_all_true. exact H.
Qed.

Lemma digitChar_isDigit (d : Z) : (0 <= d < 10)%Z -> isDigit (digitChar d) = true.
Proof.
  intros H. assert (d = 0 \/ d = 1 \/ d = 2 \/ d = 3 \/ d = 4 \/ d = 5 \/ d = 6 \/ d = 7 \/ d = 8 \/ d = 9)%Z by lia.
  repeat (destruct H0 as [H0 | H0]; [subst; reflexivity |]). subst; reflexivity.
Qed.

Lemma digitChar_value (d : Z) : (0 <= d < 10)%Z -> hexValue (digitChar d) = d.
Proof.
  intros H. assert (d = 0 \/ d = 1 \/ d = 2 \/ d = 3 \/ d = 4 \/ d = 5 \/ d = 6 \/ d = 7 \/ d = 8 \/ d = 9)%Z by lia.
  repeat (destruct H0 as [H0 | H0]; [subst; reflexivity |]). subst; reflexivity.
Qed.

Lemma digitsFuel_digits (f : nat) (n : Z) :
  (0 <= n)%Z -> Forall (fun c => isDigit c = true) (digitsFuel f n).
Proof.
  revert n. induction f as [| f IH]; intros n Hn; simpl; [constructor |].
  destruct (n <? 10)%Z eqn:E.
  - apply Z.ltb_lt in E. constructor; [apply digitChar_isDigit; lia | constructor].
  - apply Z.ltb_ge in E. apply Forall_app. split.
    + apply IH. apply Z.div_pos; lia.
    + constructor; [apply digitChar_isDigit; apply Z.mod_pos_bound; lia | constructor].
Qed.

Lemma digitsValue_snoc (radix : Z) (l : list ascii) (c : ascii) :
  digitsValue radix (l ++ [c])%list = (digitsValue radix l * radix + hexValue c)%Z.
Proof. unfold digitsValue. rewrite fold_left_app. reflexivity. Qed.

Lemma digitsFuel_value (f : nat) (n : Z) :
  (0 <= n < 10 ^ Z.of_nat f)%Z -> digitsValue 10 (digitsFuel f n) = n.
Proof.
  revert n. induction f as [| f IH]; intros n Hn.
  - simpl in Hn. unfold digitsValue; simpl. lia.
  - simpl. destruct (n <? 10)%Z eqn:E.
    + apply Z.ltb_lt in E. unfold digitsValue. simpl. rewrite digitChar_value by lia. reflexivity.
    + apply Z.ltb_ge in E. rewrite digitsValue_snoc, IH.
      * rewrite digitChar_value by (apply Z.mod_pos_bound; lia).
        pose proof (Z.div_mod n 10). lia.
      * split; [apply Z.div_pos; lia |].
        apply Z.div_lt_upper_bound; [lia |].
        rewrite Nat2Z.inj_succ, Z.pow_succ_r in Hn by lia. lia.
Qed.

Lemma decimalDigits_value (n : Z) : (0 <= n)%Z -> digitsValue 10 (decimalDigits n) = n.
Proof.
  intros Hn. unfold decimalDigits. apply digitsFuel_value. split; [exact Hn |].
  rewrite Nat2Z.inj_succ, Z2Nat.id by (apply Z.log2_nonneg).
  destruct (Z.eq_dec n 0) as [-> | Hn0]; [reflexivity |].
  pose proof (Z.log2_spec n ltac:(lia)) as [_ H2].
  apply (Z.lt_le_trans _ _ _ H2).
  apply Z.pow_le_mono_l. split; [lia | lia].
Qed.

Lemma decimalDigits_digits (n : Z) :
  (0 <= n)%Z -> Forall (fun c => isDigit c = true) (decimalDigits n).
Proof. intros. apply digitsFuel_digits; assumption. Qed.

Lemma decimalDigits_cons (n : Z) : exists d ds, decimalDigits n = d :: ds.
Proof.
  unfold decimalDigits. remember (Z.to_nat (Z.log2 n)) as k eqn:Hk. clear Hk.
  revert n. induction k as [| k IH]; intros n; simpl.
  - destruct (n <? 10)%Z; [eauto | simpl; eauto].
  - destruct (n <? 10)%Z; [eauto |]. destruct (IH (n / 10)%Z) as (d & ds & E).
    simpl in E. rewrite E. simpl. eauto.
Qed.

Ltac nat_cmp_false n :=
  repeat match goal with
  | |- context [Nat.eqb n ?k] =>
      let E := fresh in destruct (Nat.eqb_spec n k) as [E | E]; [lia |]
  | |- context [Nat.leb n ?k] =>
      let E := fresh in destruct (Nat.leb_spec n k) as [E | E]; [lia |]
  | |- context [Nat.leb ?k n] =>
      let E := fresh in destruct (Nat.leb_spec k n) as [E | E]; [| lia]
  end.

Lemma skipWhite_keep (c : ascii) (r : list ascii) :
  (33 <= nat_of_ascii c < 194)%nat -> skipWhite (c :: r) = c :: r.
Proof.
  intros H. destruct r as [| c2 [| c3 r]]; cbn [skipWhite];
    unfold isWhite, isUniSpace2, isUniSpace3; cbv zeta; nat_cmp_false (nat_of_ascii c);
    reflexivity.
Qed.

Lemma isDigit_range (c : ascii) : isDigit c = true -> (48 <= nat_of_ascii c <= 57)%nat.
Proof. unfold isDigit. rewrite andb_true_iff, !Nat.leb_le. tauto. Qed.

Lemma isDigit_neq (c d : ascii) : isDigit c = true -> isDigit d = false -> Ascii.eqb c d = false.
Proof.
  intros Hc Hd. destruct (Ascii.eqb_spec c d) as [-> | _]; [congruence | reflexivity].
Qed.

Lemma spanWhile_all (p : ascii -> bool) (l : list ascii) :
  Forall (fun c => p c = true) l -> spanWhile p l = (l, []).
Proof. induction 1 as [| c l Hc _ IH]; simpl; [reflexivity | rewrite Hc, IH; reflexivity]. Qed.

Lemma parseInt_signed_digits (neg : bool) (d : ascii) (ds : list ascii) :
  Forall (fun c => isDigit c = true) (d :: ds) ->
  parseInt ((if neg then ["-"%char] else []) ++ d :: ds)%list
  = Some (if neg then (- digitsValue 10 (d :: ds))%Z else digitsValue 10 (d :: ds)).
Proof.
  intros Hall. pose proof Hall as Hall'. inversion Hall' as [| ? ? Hd Hds]; subst.
  pose proof (isDigit_range d Hd) as Hr.
  assert (Hsign : takeSign (skipWhite ((if neg then ["-"%char] else []) ++ d :: ds)%list)
                  = (neg, d :: ds)).
  { destruct neg; simpl app.
    - rewrite skipWhite_keep by (cbn; lia). reflexivity.
    - rewrite skipWhite_keep by lia. unfold takeSign.
      rewrite (isDigit_neq d "-"%char), (isDigit_neq d "+"%char) by (assumption || reflexivity).
      reflexivity. }
  unfold parseInt. rewrite Hsign.
  assert (Hradix : match d :: ds with
                   | z :: x :: r =>
                       if Ascii.eqb z "0"%char && (Ascii.eqb x "x"%char || Ascii.eqb x "X"%char)
                       then (16%Z, r) else (10%Z, d :: ds)
                   | _ => (10%Z, d :: ds)
                   end = (10%Z, d :: ds)).
  { destruct ds as [| x r]; [reflexivity |].
    inversion Hds as [| ? ? Hx _]; subst.
    rewrite (isDigit_neq x "x"%char), (isDigit_neq x "X"%char) by (assumption || reflexivity).
    rewrite andb_false_r. reflexivity. }
  rewrite Hradix. simpl (10 =? 16)%Z. cbv iota.
  rewrite spanWhile_all by exact Hall. reflexivity.
Qed.

(** X3: the text that the share input shows for a share count,
    [formatNumber(shares)], is read back by [handleSharesChange] as the
    same count: [parseInt] of the text without its group separators. *)
Theorem sharesFieldNumber_sharesFieldText (n : Z) :
  sharesFieldNumber (sharesFieldText n) = Some n.
Proof.
  unfold sharesFieldNumber, sharesFieldText, formatNumber, removeChars.
  rewrite list_ascii_of_string_of_list_ascii, filter_app.
  set (f := fun c : ascii => negb (existsb (Ascii.eqb c) [","%char])).
  assert (Hsign : filter f (if (n <? 0)%Z then ["-"%char] else [])
                  = (if (n <? 0)%Z then ["-"%char] else [])) by (destruct (n <? 0)%Z; reflexivity).
  pose proof (decimalDigits_digits (Z.abs n) (Z.abs_nonneg n)) as Hd.
  rewrite Hsign, groupThousands_filter; [| reflexivity |].
  2: { eapply Forall_impl; [| exact Hd]. intros c Hc. subst f. simpl.
       rewrite (isDigit_neq c ","%char) by (assumption || reflexivity). reflexivity. }
  destruct (decimalDigits_cons (Z.abs n)) as (d & ds & E). rewrite E in *.
  rewrite (parseInt_signed_digits (n <? 0)%Z d ds Hd).
  rewrite <- E, decimalDigits_value by apply Z.abs_nonneg.
  f_equal. destruct (Z.ltb_spec n 0); lia.
Qed.

Lemma stepTwo_sections (config : InvestmentConfig) (ev : StepTwoEvent) (st : StepTwoState) :
  let st' := stepTwo config ev st in
  (completedSections st' = completedSections st /\ expandedSection st' = expandedSection st) \/
  (completedSections st' = completedSections st /\
   isSectionAccessible st (expandedSection st') = true) \/
  (expandedSection st <> payment /\
   completedSections st' = completedSections (handleSectionContinue (expandedSection st) st) /\
   expandedSection st' = expandedSection (handleSectionContinue (expandedSection st) st)).
Proof.
  cbv zeta.
  destruct ev; unfold stepTwo.
  - unfold toggleSection. destruct (isSectionAccessible st s) eqn:E.
    + right; left. simpl. split; [reflexivity | exact E].
    + left; split; reflexivity.
  - destruct (section_eqb _ _); left; split; reflexivity.
  - destruct (section_eqb _ _); left; split; reflexivity.
  - destruct (section_eqb (expandedSection st) investment) eqn:E; cbn [andb];
      [| left; split; reflexivity].
    destruct (negb _); [| left; split; reflexivity].
    apply section_eqb_eq in E. rewrite E. right; right.
    split; [discriminate | split; reflexivity].
  - destruct (section_eqb _ _); left; split; reflexivity.
  - destruct (section_eqb _ _); [destruct f |]; left; split; reflexivity.
  - destruct (section_eqb _ _); left; split; reflexivity.
  - destruct (section_eqb _ _); left; split; reflexivity.
  - destruct (section_eqb (expandedSection st) contact) eqn:E; [| left; split; reflexivity].
    apply section_eqb_eq in E. unfold continueContact.
    destruct (negb (isContactComplete st)); [left; split; reflexivity |].
    destruct (validateContact st) as [[errs touched] ok].
    destruct ok; [| left; split; reflexivity].
    right; right. rewrite E. split; [discriminate |].
    rewrite !handleSectionContinue_completed, !handleSectionContinue_expanded.
    split; reflexivity.
  - destruct (section_eqb (expandedSection st) confirmation) eqn:E;
      [| left; split; reflexivity].
    apply section_eqb_eq in E. rewrite E. right; right.
    split; [discriminate | split; reflexivity].
  - destruct (section_eqb _ _); [| left; split; reflexivity].
    unfold submitPayment. left.
    destruct (isSubmitting st || submitSuccess st); [split; reflexivity |].
    destruct o as [[|] err url |]; [destruct url as [u|]; [destruct (String.eqb u "") |] | |];
      split; reflexivity.
Qed.

Lemma In_firstn_sectionIndex (s : Section) (k : nat) :
  In s (firstn k sectionOrder) -> (sectionIndex s < k)%nat.
Proof.
  destruct s, k as [|[|[|[|k]]]]; simpl; intros H; try lia;
    repeat (destruct H as [H | H]; [discriminate H |]); contradiction.
Qed.

Lemma before_firstn_sectionIndex (s : Section) (k : nat) :
  (forall x, In x (sectionsBefore s) -> In x (firstn k sectionOrder)) ->
  (sectionIndex s <= k)%nat.
Proof.
  intros H. destruct (Nat.le_gt_cases (sectionIndex s) k) as [Hle | Hgt]; [exact Hle |].
  exfalso. destruct k as [|[|[|k]]].
  - destruct s; simpl in Hgt; try lia;
      pose proof (In_firstn_sectionIndex investment 0 (H investment ltac:(simpl; tauto))) as X;
      simpl in X; lia.
  - destruct s; simpl in Hgt; try lia;
      pose proof (In_firstn_sectionIndex contact 1 (H contact ltac:(simpl; tauto))) as X;
      simpl in X; lia.
  - destruct s; simpl in Hgt; try lia;
      pose proof (In_firstn_sectionIndex confirmation 2 (H confirmation ltac:(simpl; tauto))) as X;
      simpl in X; lia.
  - destruct s; simpl in Hgt; lia.
Qed.

Lemma sectionsInvariant_step (config : InvestmentConfig) (ev : StepTwoEvent) (st : StepTwoState) :
  sectionsInvariant st -> sectionsInvariant (stepTwo config ev st).
Proof.
  intros (k & Hk & Hc & He). unfold sectionsInvariant.
  destruct (stepTwo_sections config ev st) as [(H1 & H2) | [(H1 & H2) | (Hp & H1 & H2)]].
  - exists k. rewrite H1, H2. auto.
  - exists k. rewrite H1. split; [exact Hk | split; [exact Hc |]].
    apply isSectionAccessible_iff in H2. rewrite Hc in H2.
    destruct H2 as [H2 | H2];
      [apply Nat.lt_le_incl, In_firstn_sectionIndex, H2 | apply before_firstn_sectionIndex, H2].
  - rewrite H1, H2, handleSectionContinue_completed, handleSectionContinue_expanded, Hc.
    destruct (expandedSection st) eqn:Es; [| | | congruence];
      destruct k as [|[|[|[|k]]]]; simpl in He |- *; try lia;
      solve [ exists 1%nat; repeat split; (reflexivity || lia)
            | exists 2%nat; repeat split; (reflexivity || lia)
            | exists 3%nat; repeat split; (reflexivity || lia) ].
Qed.

Lemma reachable_sectionsInvariant (config : InvestmentConfig) (a0 : Q) (em : string)
    (st : StepTwoState) :
  reachable config a0 em st -> sectionsInvariant st.
Proof.
  induction 1 as [| ev st _ IH].
  - exists 0%nat. repeat split; (reflexivity || lia).
  - apply sectionsInvariant_step, IH.
Qed.

(** X4: in every reachable state of the wizard the completed sections
    are a prefix of [Investment, Contact, Confirmation, Payment] without
    [Payment], and the open section is at most the first one not yet
    completed. *)
Theorem reachable_sections_prefix (config : InvestmentConfig) (a0 : Q) (em : string)
    (st : StepTwoState) (Hr : reachable config a0 em st) :
  exists k, (k <= 3)%nat /\ completedSections st = firstn k sectionOrder /\
    (sectionIndex (expandedSection st) <= k)%nat /\ ~ In payment (completedSections st).
Proof.
  destruct (reachable_sectionsInvariant _ _ _ _ Hr) as (k & Hk & Hc & He).
  exists k. split; [exact Hk |]. split; [exact Hc |]. split; [exact He |].
  rewrite Hc. intros Hin. apply In_firstn_sectionIndex in Hin. simpl in Hin. lia.
Qed.

Lemma stepTwo_submitSuccess (config : InvestmentConfig) (ev : StepTwoEvent) (st : StepTwoState) :
  submitSuccess st = true ->
  submitSuccess (stepTwo config ev st) = true /\ (forall o, stepTwo config (Submit o) st = st).
Proof.
  intros H. split.
  - destruct ev; unfold stepTwo, toggleSection, continueContact, submitPayment,
      handleAmountChange, handleSharesChange, changeInvestorType, editContact,
      blurFirstName, blurLastName, handleSectionContinue;
      destruct_matches; simpl; rewrite ?H, ?orb_true_r in *; try reflexivity; try discriminate.
  - intros o. unfold stepTwo, submitPayment. rewrite H, orb_true_r.
    destruct (section_eqb _ _); reflexivity.
Qed.

(** X5: once the payment step has recorded a success, every later action
    keeps [submitSuccess] set, and a further click on the payment button
    changes nothing. *)
Theorem submitSuccess_sticky (config : InvestmentConfig) (st : StepTwoState)
    (H : submitSuccess st = true) :
  (forall evs, submitSuccess (fold_left (fun s ev => stepTwo config ev s) evs st) = true) /\
  (forall o, stepTwo config (Submit o) st = st).
Proof.
  split; [| exact (proj2 (stepTwo_submitSuccess config (Submit (SubmitNetworkError)) st H))].
  intros evs. revert st H. induction evs as [| ev evs IH]; intros st H; [exact H |].
  simpl. apply IH, (stepTwo_submitSuccess config ev st H).
Qed.

(** ** Instances of the claims at concrete inputs *)

Lemma getNextTierInfo_spec_witness :
  getNextTierInfo 30000 FALLBACK_CONFIG = None.
Proof.
  apply (proj2 (proj1 (getNextTierInfo_spec 30000 FALLBACK_CONFIG))).
  repeat constructor; apply Qle_bool_iff; reflexivity.
Defined.

Lemma wizard_section_state_machine_witness :
  let c := FALLBACK_CONFIG in
  let st := stepTwo c ContinueContact
              (stepTwo c (EditContact FLastName "Lovelace")
                (stepTwo c (EditContact FFirstName "Ada")
                  (stepTwo c ContinueInvestment
                    (initStepTwo c 1000 "investor@example.com")))) in
  reachable c 1000 "investor@example.com" st /\
  completedSections st = [investment; contact] /\
  NoDup (completedSections st) /\
  isSectionAccessible st confirmation = true /\
  completedSections (handleSectionContinue confirmation st)
    = [investment; contact; confirmation] /\
  completedSections (handleSectionContinue contact st) = [investment; contact] /\
  expandedSection (handleSectionContinue confirmation st) = payment.
Proof.
  intros c st.
  assert (Hr : reachable c 1000 "investor@example.com" st)
    by (repeat apply reach_step; apply reach_init).
  assert (Hc : completedSections st = [investment; contact]) by (vm_compute; reflexivity).
  pose proof (wizard_section_state_machine c 1000 "investor@example.com" st Hr)
    as [Hnd [Hacc Hcont]].
  split; [exact Hr |]. split; [exact Hc |]. split; [exact Hnd |].
  split.
  { apply Hacc. right. intros x Hx. rewrite Hc. exact Hx. }
  destruct (Hcont confirmation) as [_ [_ [Hnew Hexp]]].
  destruct (Hcont contact) as [_ [Hold _]].
  split.
  { rewrite Hnew, Hc; [reflexivity |]. rewrite Hc. simpl. intuition discriminate. }
  split.
  { rewrite Hold, Hc; [reflexivity |]. rewrite Hc. simpl. auto. }
  exact Hexp.
Defined.

Lemma contact_data_cleared_only_by_type_change_witness :
  let st := stepTwo FALLBACK_CONFIG ContinueInvestment
              (initStepTwo FALLBACK_CONFIG 1000 "investor@example.com") in
  expandedSection st = contact /\
  investorType (stepTwo FALLBACK_CONFIG (SelectInvestorType "joint") st) = "joint".
Proof.
  intros st.
  assert (Hc : expandedSection st = contact) by (vm_compute; reflexivity).
  split; [exact Hc |].
  exact (proj1 (proj1 (contact_data_cleared_only_by_type_change FALLBACK_CONFIG st "joint" Hc))).
Defined.

Lemma stepTwo_amount_and_share_edits_witness :
  let st := initStepTwo FALLBACK_CONFIG 1000 "investor@example.com" in
  expandedSection st = investment /\
  st_amount (stepTwo FALLBACK_CONFIG (AmountInput (Some 2000)) st) = parsedOrZero (Some 2000).
Proof.
  intros st.
  assert (Hc : expandedSection st = investment) by reflexivity.
  split; [exact Hc |].
  exact (proj1 (proj1 (stepTwo_amount_and_share_edits FALLBACK_CONFIG st Hc (Some 2000) None))).
Defined.

Lemma patch_without_investorId_not_400_witness :
  isDealmakerConfigured sampleEnv = true /\
  (statusOf (patchInvestor offlineRuntime sampleEnv (Some (JObj []))) = Some 200%Z \/
   statusOf (patchInvestor offlineRuntime sampleEnv (Some (JObj []))) = Some 500%Z).
Proof.
  assert (Henv : isDealmakerConfigured sampleEnv = true) by reflexivity.
  split; [exact Henv |].
  exact (patch_without_investorId_not_400 offlineRuntime sampleEnv Henv).
Defined.

Lemma routes_unconfigured_503_witness :
  isDealmakerConfigured (mkEnv None (Some "secret") (Some "1234")) = false /\
  exists m, patchInvestor offlineRuntime (mkEnv None (Some "secret") (Some "1234"))
              (Some (JObj [])) = respondError m 503.
Proof.
  assert (H : isDealmakerConfigured (mkEnv None (Some "secret") (Some "1234")) = false)
    by reflexivity.
  split; [exact H |].
  exact (proj1 (proj2 (proj2 (routes_unconfigured_503 offlineRuntime _ (Some (JObj [])) "" H)))).
Defined.

Lemma routes_missing_field_400_witness :
  let body := JObj [("email", JStr "investor@example.com"); ("investmentAmount", JNum 0)] in
  isDealmakerConfigured sampleEnv = true /\ body <> JNull /\
  createEarly offlineRuntime sampleEnv (Some body)
  = respondError (JStr "Email and investment amount are required.") 400 /\
  statusOf (accessLinkRoute offlineRuntime sampleEnv "") = Some 400%Z.
Proof.
  intros body.
  assert (H : isDealmakerConfigured sampleEnv = true) by reflexivity.
  assert (Hb : body <> JNull) by discriminate.
  pose proof (routes_missing_field_400 offlineRuntime sampleEnv body "" H Hb)
    as [Hc [_ [_ [_ [_ Ha]]]]].
  split; [exact H |]. split; [exact Hb |]. split.
  - apply Hc. right. reflexivity.
  - apply Ha. reflexivity.
Defined.

Lemma sharesFieldNumber_sharesFieldText_witness :
  sharesFieldNumber (sharesFieldText 1234567) = Some 1234567%Z.
Proof. exact (sharesFieldNumber_sharesFieldText 1234567). Defined.

Lemma reachable_sections_prefix_witness :
  let c := FALLBACK_CONFIG in
  let st := stepTwo c ContinueContact
              (stepTwo c (EditContact FLastName "Lovelace")
                (stepTwo c (EditContact FFirstName "Ada")
                  (stepTwo c ContinueInvestment
                    (initStepTwo c 1000 "investor@example.com")))) in
  reachable c 1000 "investor@example.com" st /\
  completedSections st = [investment; contact] /\
  exists k, (k <= 3)%nat /\ completedSections st = firstn k sectionOrder /\
    (sectionIndex (expandedSection st) <= k)%nat /\ ~ In payment (completedSections st).
Proof.
  intros c st.
  assert (Hr : reachable c 1000 "investor@example.com" st)
    by (repeat apply reach_step; apply reach_init).
  split; [exact Hr |]. split; [vm_compute; reflexivity |].
  exact (reachable_sections_prefix c 1000 "investor@example.com" st Hr).
Defined.

Lemma submitSuccess_sticky_witness :
  let c := FALLBACK_CONFIG in
  let st := stepTwo c (Submit (SubmitHttp true None None))
              (stepTwo c ContinueConfirmation
                (stepTwo c ContinueContact
                  (stepTwo c (EditContact FLastName "Lovelace")
                    (stepTwo c (EditContact FFirstName "Ada")
                      (stepTwo c ContinueInvestment
                        (initStepTwo c 1000 "investor@example.com")))))) in
  submitSuccess st = true /\
  submitSuccess (fold_left (fun s ev => stepTwo c ev s)
                   [Toggle investment; AmountInput (Some 5000); ContinueInvestment] st) = true /\
  stepTwo c (Submit SubmitNetworkError) st = st.
Proof.
  intros c st.
  assert (H : submitSuccess st = true) by (vm_compute; reflexivity).
  destruct (submitSuccess_sticky c st H) as [Hrun Hsub].
  split; [exact H |]. split; [apply Hrun | apply Hsub].
Defined.
